(** * friend_invite_manager: pending-request registry and reply correlator

    A shallow embedding of [main.py] (class [FriendInviteManager]) and the
    properties of its two pending-request registries and of the
    administrator message handler [on_all_message]. *)

From Stdlib Require Import String Ascii NArith.
From stdpp Require Import gmap list fin_maps.

(** ** Python strings

    A Python [str] is a sequence of Unicode code points.  String literals of
    the source are written as UTF-8 literals and decoded once. *)

Module Str.

Local Open Scope N_scope.

Abbreviation str := (list N).

Definition bytes_of (s : string) : list N :=
  map N_of_ascii (list_ascii_of_string s).

(** UTF-8 decoding of a well-formed byte sequence (1 to 4 byte forms). *)
Fixpoint utf8_decode (bs : list N) : str :=
  match bs with
  | [] => []
  | b0 :: r0 =>
    if b0 <? 128 then b0 :: utf8_decode r0
    else match r0 with
    | [] => []
    | b1 :: r1 =>
      if b0 <? 224 then ((b0 - 192) * 64 + (b1 - 128)) :: utf8_decode r1
      else match r1 with
      | [] => []
      | b2 :: r2 =>
        if b0 <? 240
        then ((b0 - 224) * 4096 + (b1 - 128) * 64 + (b2 - 128)) :: utf8_decode r2
        else match r2 with
        | [] => []
        | b3 :: r3 =>
          ((b0 - 240) * 262144 + (b1 - 128) * 4096 + (b2 - 128) * 64 + (b3 - 128))
            :: utf8_decode r3
        end
      end
    end
  end.

Definition u (s : string) : str := utf8_decode (bytes_of s).

Definition LF : N := 10.
Definition CR : N := 13.
Definition SPACE : N := 32.
Definition COLON : N := 58.
Definition UNDERSCORE : N := 95.

(** [str.isspace] on one code point (CPython's [_PyUnicode_IsWhitespace]). *)
Definition isspace (c : N) : bool :=
  ((9 <=? c) && (c <=? 13)) || ((28 <=? c) && (c <=? 32))
  || (c =? 133) || (c =? 160) || (c =? 5760)
  || ((8192 <=? c) && (c <=? 8202))
  || (c =? 8232) || (c =? 8233) || (c =? 8239) || (c =? 8287) || (c =? 12288).

(** Line boundaries of [str.splitlines] (CPython's [_PyUnicode_IsLinebreak]). *)
Definition islinebreak (c : N) : bool :=
  ((10 <=? c) && (c <=? 13)) || ((28 <=? c) && (c <=? 30))
  || (c =? 133) || (c =? 8232) || (c =? 8233).

(** [s.lstrip()], [s.rstrip()], [s.strip()] *)
Fixpoint lstrip (s : str) : str :=
  match s with
  | [] => []
  | c :: r => if isspace c then lstrip r else s
  end.

Fixpoint rstrip (s : str) : str :=
  match s with
  | [] => []
  | c :: r =>
    match rstrip r with
    | [] => if isspace c then [] else [c]
    | r' => c :: r'
    end
  end.

Definition strip (s : str) : str := rstrip (lstrip s).

(** [s.startswith(p)] *)
Fixpoint startswith (p s : str) : bool :=
  match p, s with
  | [], _ => true
  | _ :: _, [] => false
  | a :: p', b :: s' => (a =? b) && startswith p' s'
  end.

(** [p in s] (substring test) *)
Fixpoint contains (p s : str) : bool :=
  startswith p s ||
  match s with
  | [] => false
  | _ :: r => contains p r
  end.

(** [s.splitlines()]: the line breaks are dropped, CR LF counts as one break,
    and a trailing break opens no further line. *)
Fixpoint splitlines (s : str) : list str :=
  match s with
  | [] => []
  | c :: r =>
    if islinebreak c then
      [] :: match r with
            | c' :: r' => if (c =? CR) && (c' =? LF) then splitlines r' else splitlines r
            | [] => []
            end
    else
      match splitlines r with
      | [] => [[c]]
      | l :: ls => (c :: l) :: ls
      end
  end.

(** [s.split(sep, 1)] for a one-character separator. *)
Fixpoint split1 (sep : N) (s : str) : list str :=
  match s with
  | [] => [[]]
  | c :: r =>
    if c =? sep then [[]; r]
    else match split1 sep r with
         | [a] => [c :: a]
         | a :: rest => (c :: a) :: rest
         | [] => [[c]]
         end
  end.

(** The first whitespace-delimited word and what follows it. *)
Fixpoint span_word (s : str) : str * str :=
  match s with
  | [] => ([], [])
  | c :: r => if isspace c then ([], s) else let '(w, t) := span_word r in (c :: w, t)
  end.

(** [s.split(maxsplit=1)]: split on runs of whitespace, at most once; the
    remainder keeps its trailing whitespace. *)
Definition split_ws1 (s : str) : list str :=
  match lstrip s with
  | [] => []
  | s' =>
    let '(w, t) := span_word s' in
    match lstrip t with
    | [] => [w]
    | rest => [w; rest]
    end
  end.

End Str.

Import Str.

(** ** String literals of the plugin *)

Definition K_user_id : str := Eval vm_compute in u "user_id".
Definition K_comment : str := Eval vm_compute in u "comment".
Definition K_flag : str := Eval vm_compute in u "flag".
Definition K_group_id : str := Eval vm_compute in u "group_id".
Definition K_post_type : str := Eval vm_compute in u "post_type".
Definition K_request_type : str := Eval vm_compute in u "request_type".
Definition K_sub_type : str := Eval vm_compute in u "sub_type".
Definition V_request : str := Eval vm_compute in u "request".
Definition V_friend : str := Eval vm_compute in u "friend".
Definition V_group : str := Eval vm_compute in u "group".
Definition V_invite : str := Eval vm_compute in u "invite".
Definition V_add : str := Eval vm_compute in u "add".

Definition FRIEND_MARKER : str := Eval vm_compute in u "【好友申请】".
Definition FRIEND_ID_LABEL : str := Eval vm_compute in u "申请ID:".
Definition GROUP_MARKER : str := Eval vm_compute in u "【群邀请】".
Definition GROUP_ID_LABEL : str := Eval vm_compute in u "邀请ID:".
Definition KW_APPROVE : str := Eval vm_compute in u "同意".
Definition KW_REJECT : str := Eval vm_compute in u "拒绝".
Definition CMD_DELETE : str := Eval vm_compute in u "删除好友 ".
Definition CMD_BAN : str := Eval vm_compute in u "拉黑 ".

Definition T_requester : str := Eval vm_compute in u "申请人QQ: ".
Definition T_comment : str := Eval vm_compute in u "验证信息: ".
Definition T_friend_id : str := Eval vm_compute in u "申请ID: ".
Definition T_group : str := Eval vm_compute in u "群号: ".
Definition T_inviter : str := Eval vm_compute in u "邀请人QQ: ".
Definition T_group_id : str := Eval vm_compute in u "邀请ID: ".
Definition T_quote_hint : str := Eval vm_compute in u "请【引用】本条消息并回复：".
Definition T_choices : str := Eval vm_compute in u "  同意  或  拒绝".

Definition MSG_no_admins : str :=
  Eval vm_compute in u "未配置 admin_qq_list，无法通知管理员".
Definition MSG_notify_failed_1 : str := Eval vm_compute in u "通知管理员 ".
Definition MSG_notify_failed_2 : str := Eval vm_compute in u " 失败: ".
Definition MSG_friend_not_found : str :=
  Eval vm_compute in u "未找到对应的好友申请，可能已过期或已处理。".
Definition MSG_friend_unsupported : str :=
  Eval vm_compute in u "当前平台不支持 call_action，无法处理好友申请。".
Definition MSG_friend_approved : str := Eval vm_compute in u "已同意好友申请：".
Definition MSG_friend_rejected : str := Eval vm_compute in u "已拒绝好友申请：".
Definition MSG_friend_failed : str := Eval vm_compute in u "处理好友申请失败: ".
Definition MSG_group_not_found : str :=
  Eval vm_compute in u "未找到对应的群邀请，可能已过期或已处理。".
Definition MSG_group_unsupported : str :=
  Eval vm_compute in u "当前平台不支持 call_action，无法处理群邀请。".
Definition MSG_group_approved_1 : str := Eval vm_compute in u "已同意群邀请：".
Definition MSG_group_approved_2 : str := Eval vm_compute in u "，bot 将加入该群。".
Definition MSG_group_rejected_1 : str := Eval vm_compute in u "已拒绝群邀请：".
Definition MSG_group_rejected_2 : str := Eval vm_compute in u "，bot 不会加入该群。".
Definition MSG_group_failed : str := Eval vm_compute in u "处理群邀请失败: ".
Definition MSG_delete_unsupported : str :=
  Eval vm_compute in u "当前平台不支持 call_action，无法删除好友。".
Definition MSG_deleted : str := Eval vm_compute in u "已删除好友：".
Definition MSG_delete_failed : str := Eval vm_compute in u "删除好友失败: ".
Definition MSG_ban_unsupported : str :=
  Eval vm_compute in u "当前平台不支持 call_action，无法拉黑用户。".
Definition MSG_banned : str := Eval vm_compute in u "已拉黑用户：".
Definition MSG_ban_failed : str := Eval vm_compute in u "拉黑用户失败: ".

(** ** Data model *)

(** The [info] dict stored for a pending friend request. *)
Module Friend.
Record info : Type := Info {
  request_id : str;
  user_id : str;
  comment : str;
  flag : str;
}.
End Friend.

(** The [info] dict stored for a pending group invite. *)
Module Group.
Record info : Type := Info {
  request_id : str;
  group_id : str;
  user_id : str;
  flag : str;
}.
End Group.

(** The attributes of [self]. *)
Record FriendInviteManager : Type := {
  admin_qq_list : list str;
  bot_qq : str;
  pending_friend_requests : gmap str Friend.info;
  pending_group_invites : gmap str Group.info;
}.

Definition set_pending_friend_requests
    (f : gmap str Friend.info -> gmap str Friend.info)
    (self : FriendInviteManager) : FriendInviteManager :=
  {| admin_qq_list := admin_qq_list self;
     bot_qq := bot_qq self;
     pending_friend_requests := f (pending_friend_requests self);
     pending_group_invites := pending_group_invites self |}.

Definition set_pending_group_invites
    (f : gmap str Group.info -> gmap str Group.info)
    (self : FriendInviteManager) : FriendInviteManager :=
  {| admin_qq_list := admin_qq_list self;
     bot_qq := bot_qq self;
     pending_friend_requests := pending_friend_requests self;
     pending_group_invites := f (pending_group_invites self) |}.

(** [__init__] with the two configuration values read from [config]. *)
Definition init (admins : list str) (bot : str) : FriendInviteManager :=
  {| admin_qq_list := admins;
     bot_qq := bot;
     pending_friend_requests := ∅;
     pending_group_invites := ∅ |}.

(** The OneBot actions the plugin passes to [bot.call_action]. *)
Inductive Action : Type :=
| set_friend_add_request (flag : str) (approve : bool)
| set_group_add_request (flag : str) (sub_type : str) (approve : bool)
| delete_friend (user_id : str)
| set_friend_blacklist (user_id : str) (enable : bool).

(** What a handler does to the outside world, in order.  [CallAction],
    [Send] and [SendMessage] stand for the call being made, whether it then
    returns or raises. *)
Inductive Effect : Type :=
| CallAction (a : Action)
| Send (text : str)
| SendMessage (admin_qq : str) (text : str)
| LogError (text : str)
| LogWarning (text : str).

(** [event.bot]: whether it has a [call_action] attribute, and how a call
    ends: [None] when it returns, [Some e] when it raises an exception whose
    text is [e]. *)
Record Bot : Type := {
  has_call_action : bool;
  call_action : Action -> option str;
}.

(** A component of the message chain, with or without a [text] attribute. *)
Inductive Comp : Type :=
| Plain (text : str)
| NoText.

Record AstrMessageEvent : Type := {
  get_sender_id : str;
  message_str : str;
  (** [event.message_obj.message]; [None] when one of the attributes is missing *)
  message : option (list Comp);
  (** [event.message_obj.raw_message] when it is a dict *)
  raw_message : option (gmap str str);
  bot : Bot;
  (** [event.send(text)]: [None] when it returns, [Some e] when it raises. *)
  send : str -> option str;
  (** [event.get_platform_adapter()] in the iteration for one administrator:
      [None] when it returns the adapter, [Some e] when it raises. *)
  get_platform_adapter : str -> option str;
  (** [adapter.send_message(event, text, target)] to one administrator:
      [None] when it returns, [Some e] when it raises. *)
  send_message : str -> str -> option str;
}.

(** ** Handlers as state transformers with a trace of effects *)

Definition M (A : Type) : Type :=
  FriendInviteManager -> A * FriendInviteManager * list Effect.

Definition ret {A} (a : A) : M A := fun self => (a, self, []).

Definition bind {A B} (m : M A) (k : A -> M B) : M B :=
  fun self =>
    let r1 := m self in
    let r2 := k r1.1.1 r1.1.2 in
    (r2.1.1, r2.1.2, r1.2 ++ r2.2).

Declare Scope plugin_scope.
Delimit Scope plugin_scope with plugin.
Notation "'let*' x := m 'in' k" := (bind m (fun x => k))
  (at level 10, x name, m at level 100, k at level 200) : plugin_scope.
Notation "m >> k" := (bind m (fun _ => k))
  (at level 100, k at level 200, right associativity) : plugin_scope.
Local Open Scope plugin_scope.

Definition get : M FriendInviteManager := fun self => (self, self, []).
Definition modify (f : FriendInviteManager -> FriendInviteManager) : M unit :=
  fun self => (tt, f self, []).
Definition emit (e : Effect) : M unit := fun self => (tt, self, [e]).
Definition skip : M unit := ret tt.

(** The final attributes of [self] and the trace of a run. *)
Definition state_of {A} (r : A * FriendInviteManager * list Effect) :
  FriendInviteManager := r.1.2.
Definition trace_of {A} (r : A * FriendInviteManager * list Effect) :
  list Effect := r.2.

(** The actuator calls of a trace. *)
Definition calls (t : list Effect) : list Action :=
  omap (fun e => match e with CallAction a => Some a | _ => None end) t.

(** The replies ([event.send]) of a trace. *)
Definition sends (t : list Effect) : list str :=
  omap (fun e => match e with Send s => Some s | _ => None end) t.

(** [d.get(k, "")] *)
Definition dict_get (d : gmap str str) (k : str) : str := default [] (d !! k).

(** ** [try] and [except]

    The body of a [try] is a run that ends with [None] when it reaches its
    end and with [Some e] when one of its steps raised an exception of text
    [e]; the steps after the raising one are not run.  The effect of a step
    is the call itself, made whether it then returns or raises. *)
Definition Try : Type := M (option str).

(** A step that does not raise. *)
Definition step (m : M unit) : Try := m >> ret None.

Definition and_then (t1 t2 : Try) : Try :=
  let* r := t1 in
  match r with
  | None => t2
  | Some e => ret (Some e)
  end.

Notation "t1 ;; t2" := (and_then t1 t2)
  (at level 100, t2 at level 200, right associativity) : plugin_scope.

(** [try: body except Exception as e: handler] *)
Definition try_except (body : Try) (handler : str -> M unit) : M unit :=
  let* r := body in
  match r with
  | None => skip
  | Some e => handler e
  end.

(** [await bot.call_action(...)] *)
Definition bot_call_action (event : AstrMessageEvent) (a : Action) : Try :=
  emit (CallAction a) >> ret (call_action (bot event) a).

(** [await event.send(text)] inside a [try].  Outside a [try] the plugin
    sends only as the last step of a handler, where a raising send leaves the
    handler at the point where it ends anyway: there the send is written
    [emit (Send text)]. *)
Definition event_send (event : AstrMessageEvent) (text : str) : Try :=
  emit (Send text) >> ret (send event text).

(** [adapter = event.get_platform_adapter()] *)
Definition event_get_platform_adapter (event : AstrMessageEvent)
    (admin_qq : str) : Try :=
  ret (get_platform_adapter event admin_qq).

(** [await adapter.send_message(event, text, target=target)] *)
Definition adapter_send_message (event : AstrMessageEvent)
    (admin_qq text : str) : Try :=
  emit (SendMessage admin_qq text) >> ret (send_message event admin_qq text).

(** ** The plugin's methods *)

(** [_is_admin] *)
Definition _is_admin (self : FriendInviteManager) (user_id : str) : bool :=
  bool_decide (user_id ∈ admin_qq_list self).

(** The loop of [_notify_admins]: for each administrator the adapter is
    fetched and the private message sent; when either raises, the failure is
    logged and the loop goes on. *)
Fixpoint notify_each (event : AstrMessageEvent) (text : str)
    (admins : list str) : M unit :=
  match admins with
  | [] => skip
  | admin_qq :: rest =>
    try_except
      (event_get_platform_adapter event admin_qq ;;
       adapter_send_message event admin_qq text)
      (fun e =>
         emit (LogError (MSG_notify_failed_1 ++ admin_qq ++ MSG_notify_failed_2 ++ e)))
    >> notify_each event text rest
  end.

(** [_notify_admins] *)
Definition _notify_admins (text : str) (event : AstrMessageEvent) : M unit :=
  let* self := get in
  match admin_qq_list self with
  | [] => emit (LogWarning MSG_no_admins)
  | admins => notify_each event text admins
  end.

(** The f-string [f"{user_id}_{flag}"] of [_handle_friend_request]. *)
Definition friend_request_id (user_id flag : str) : str :=
  user_id ++ [UNDERSCORE] ++ flag.

(** The f-string [f"{group_id}_{user_id}_{flag}"] of [_handle_group_invite]. *)
Definition group_invite_id (group_id user_id flag : str) : str :=
  group_id ++ [UNDERSCORE] ++ user_id ++ [UNDERSCORE] ++ flag.

(** The notification text of [_handle_friend_request]. *)
Definition friend_request_text (user_id comment request_id : str) : str :=
  FRIEND_MARKER ++ [LF] ++
  T_requester ++ user_id ++ [LF] ++
  T_comment ++ comment ++ [LF] ++
  T_friend_id ++ request_id ++ [LF] ++
  T_quote_hint ++ [LF] ++
  T_choices.

(** The notification text of [_handle_group_invite]. *)
Definition group_invite_text (group_id user_id request_id : str) : str :=
  GROUP_MARKER ++ [LF] ++
  T_group ++ group_id ++ [LF] ++
  T_inviter ++ user_id ++ [LF] ++
  T_group_id ++ request_id ++ [LF] ++
  T_quote_hint ++ [LF] ++
  T_choices.

(** [_handle_friend_request] *)
Definition _handle_friend_request (event : AstrMessageEvent)
    (request_data : gmap str str) : M unit :=
  let user_id := dict_get request_data K_user_id in
  let comment := dict_get request_data K_comment in
  let flag := dict_get request_data K_flag in
  let request_id := friend_request_id user_id flag in
  let info := Friend.Info request_id user_id comment flag in
  modify (set_pending_friend_requests (insert request_id info)) >>
  _notify_admins (friend_request_text user_id comment request_id) event.

(** [_reply_friend_request] *)
Definition _reply_friend_request (event : AstrMessageEvent)
    (request_id : str) (approve : bool) : M unit :=
  let* self := get in
  match pending_friend_requests self !! request_id with
  | None => emit (Send MSG_friend_not_found)
  | Some info =>
    let flag := Friend.flag info in
    let user_id := Friend.user_id info in
    if negb (has_call_action (bot event)) then emit (Send MSG_friend_unsupported)
    else
      try_except
        (bot_call_action event (set_friend_add_request flag approve) ;;
         step (modify (set_pending_friend_requests (delete request_id))) ;;
         (if approve then event_send event (MSG_friend_approved ++ user_id)
          else event_send event (MSG_friend_rejected ++ user_id)))
        (fun e =>
           emit (LogError (MSG_friend_failed ++ e)) >>
           emit (Send (MSG_friend_failed ++ e)))
  end.

(** [_handle_group_invite] *)
Definition _handle_group_invite (event : AstrMessageEvent)
    (request_data : gmap str str) : M unit :=
  let group_id := dict_get request_data K_group_id in
  let user_id := dict_get request_data K_user_id in
  let flag := dict_get request_data K_flag in
  let request_id := group_invite_id group_id user_id flag in
  let info := Group.Info request_id group_id user_id flag in
  modify (set_pending_group_invites (insert request_id info)) >>
  _notify_admins (group_invite_text group_id user_id request_id) event.

(** [_reply_group_invite] *)
Definition _reply_group_invite (event : AstrMessageEvent)
    (request_id : str) (approve : bool) : M unit :=
  let* self := get in
  match pending_group_invites self !! request_id with
  | None => emit (Send MSG_group_not_found)
  | Some info =>
    let group_id := Group.group_id info in
    let flag := Group.flag info in
    if negb (has_call_action (bot event)) then emit (Send MSG_group_unsupported)
    else
      try_except
        (bot_call_action event (set_group_add_request flag V_add approve) ;;
         step (modify (set_pending_group_invites (delete request_id))) ;;
         (if approve
          then event_send event
                 (MSG_group_approved_1 ++ group_id ++ MSG_group_approved_2)
          else event_send event
                 (MSG_group_rejected_1 ++ group_id ++ MSG_group_rejected_2)))
        (fun e =>
           emit (LogError (MSG_group_failed ++ e)) >>
           emit (Send (MSG_group_failed ++ e)))
  end.

(** [_delete_friend] *)
Definition _delete_friend (event : AstrMessageEvent) (user_id : str) : M unit :=
  if negb (has_call_action (bot event)) then emit (Send MSG_delete_unsupported)
  else
    try_except
      (bot_call_action event (delete_friend user_id) ;;
       event_send event (MSG_deleted ++ user_id))
      (fun e =>
         emit (LogError (MSG_delete_failed ++ e)) >>
         emit (Send (MSG_delete_failed ++ e))).

(** [_ban_user] *)
Definition _ban_user (event : AstrMessageEvent) (user_id : str) : M unit :=
  if negb (has_call_action (bot event)) then emit (Send MSG_ban_unsupported)
  else
    try_except
      (bot_call_action event (set_friend_blacklist user_id true) ;;
       event_send event (MSG_banned ++ user_id))
      (fun e =>
         emit (LogError (MSG_ban_failed ++ e)) >>
         emit (Send (MSG_ban_failed ++ e))).

(** The loop over the message chain of [on_all_message]: the text of the
    first component that has a [text] attribute, else the empty string. *)
Fixpoint first_text (chain : list Comp) : str :=
  match chain with
  | [] => []
  | Plain text :: _ => text
  | NoText :: rest => first_text rest
  end.

Definition quoted_text_of (event : AstrMessageEvent) : str :=
  match message event with
  | Some chain => first_text chain
  | None => []
  end.

(** The loop over [lines] of [on_all_message]: at the first line that starts
    with [label], [line.split(":", 1)[1].strip()]; [None] when no line does.
    (The index [1] exists on such a line: see [split1_after_label].) *)
Fixpoint extract_request_id (label : str) (lines : list str) : option str :=
  match lines with
  | [] => None
  | line :: rest =>
    if startswith label line
    then strip <$> (split1 COLON line !! 1%nat)
    else extract_request_id label rest
  end.

(** Truth value of [request_id] in [if request_id and ...]. *)
Definition truthy (request_id : option str) : option str :=
  match request_id with
  | Some [] => None
  | r => r
  end.

(** Part 2 of [on_all_message], the command [拉黑 <id>]. *)
Definition ban_command (event : AstrMessageEvent) (msg : str) : M unit :=
  if startswith CMD_BAN msg then
    match split_ws1 msg with
    | [_; arg] => _ban_user event (strip arg)
    | _ => skip
    end
  else skip.

(** Part 2 of [on_all_message], the command [删除好友 <id>]; without it, the
    handler goes on to [拉黑]. *)
Definition delete_command (event : AstrMessageEvent) (msg : str) : M unit :=
  if startswith CMD_DELETE msg then
    match split_ws1 msg with
    | [_; arg] => _delete_friend event (strip arg)
    | _ => ban_command event msg
    end
  else ban_command event msg.

(** Part 1 of [on_all_message], a quoted group-invite notification; without a
    decision the handler goes on to the commands. *)
Definition group_invite_reply (event : AstrMessageEvent)
    (quoted_text msg : str) : M unit :=
  let* self := get in
  if contains GROUP_MARKER quoted_text then
    match truthy (extract_request_id GROUP_ID_LABEL (splitlines quoted_text)) with
    | Some request_id =>
      if bool_decide (is_Some (pending_group_invites self !! request_id)) then
        if contains KW_APPROVE msg then _reply_group_invite event request_id true
        else if contains KW_REJECT msg then _reply_group_invite event request_id false
        else delete_command event msg
      else delete_command event msg
    | None => delete_command event msg
    end
  else delete_command event msg.

(** Part 1 of [on_all_message], a quoted friend-request notification; without
    a decision the handler goes on to the group-invite check. *)
Definition friend_request_reply (event : AstrMessageEvent)
    (quoted_text msg : str) : M unit :=
  let* self := get in
  if contains FRIEND_MARKER quoted_text then
    match truthy (extract_request_id FRIEND_ID_LABEL (splitlines quoted_text)) with
    | Some request_id =>
      if bool_decide (is_Some (pending_friend_requests self !! request_id)) then
        if contains KW_APPROVE msg then _reply_friend_request event request_id true
        else if contains KW_REJECT msg then _reply_friend_request event request_id false
        else group_invite_reply event quoted_text msg
      else group_invite_reply event quoted_text msg
    | None => group_invite_reply event quoted_text msg
    end
  else group_invite_reply event quoted_text msg.

(** [on_all_message] *)
Definition on_all_message (event : AstrMessageEvent) : M unit :=
  let* self := get in
  let sender_id := get_sender_id event in
  if negb (_is_admin self sender_id) then skip
  else
    let msg := strip (message_str event) in
    match msg with
    | [] => skip
    | _ :: _ => friend_request_reply event (quoted_text_of event) msg
    end.

(** [on_request_event] *)
Definition on_request_event (event : AstrMessageEvent) : M unit :=
  match raw_message event with
  | None => skip
  | Some raw =>
    if bool_decide (raw !! K_post_type = Some V_request) then
      let request_type := raw !! K_request_type in
      let sub_type := raw !! K_sub_type in
      (if bool_decide (request_type = Some V_friend)
       then _handle_friend_request event raw else skip) >>
      (if bool_decide (request_type = Some V_group) && bool_decide (sub_type = Some V_invite)
       then _handle_group_invite event raw else skip)
    else skip
  end.

(** A recorded gateway event: the fields [_handle_friend_request] reads. *)
Definition friend_event (user_id comment flag : str) : gmap str str :=
  <[K_user_id := user_id]> (<[K_comment := comment]> (<[K_flag := flag]> ∅)).

(** A recorded gateway event: the fields [_handle_group_invite] reads. *)
Definition group_event (group_id user_id flag : str) : gmap str str :=
  <[K_group_id := group_id]> (<[K_user_id := user_id]> (<[K_flag := flag]> ∅)).

(** ** Predicates of the statements *)

(** A reply is matched when the quoted text has the marker and its id line
    names a pending record. *)
Definition friend_matched (self : FriendInviteManager) (quoted_text : str)
    (request_id : str) : Prop :=
  contains FRIEND_MARKER quoted_text = true
  ∧ extract_request_id FRIEND_ID_LABEL (splitlines quoted_text) = Some request_id
  ∧ request_id ≠ []
  ∧ is_Some (pending_friend_requests self !! request_id).

Definition group_matched (self : FriendInviteManager) (quoted_text : str)
    (request_id : str) : Prop :=
  contains GROUP_MARKER quoted_text = true
  ∧ extract_request_id GROUP_ID_LABEL (splitlines quoted_text) = Some request_id
  ∧ request_id ≠ []
  ∧ is_Some (pending_group_invites self !! request_id).

(** No approve or reject action among the calls. *)
Definition no_decision_call (t : list Effect) : Prop :=
  forall a, a ∈ calls t ->
    match a with
    | set_friend_add_request _ _ | set_group_add_request _ _ _ => False
    | delete_friend _ | set_friend_blacklist _ _ => True
    end.

(** A string without whitespace. *)
Definition no_space (p : str) : Prop :=
  forallb (fun c => negb (isspace c)) p = true.

(** A string without line boundary. *)
Definition no_linebreak (s : str) : Prop :=
  forallb (fun c => negb (islinebreak c)) s = true.

(** ** Concrete events and states *)

Definition bot_returning : Bot :=
  {| has_call_action := true; call_action := fun _ => None |}.

Definition bot_raising (e : str) : Bot :=
  {| has_call_action := true; call_action := fun _ => Some e |}.

(** An inbound chat message. *)
Definition chat_event (b : Bot) (sender body : str) (chain : list Comp) :
    AstrMessageEvent :=
  {| get_sender_id := sender; message_str := body; message := Some chain;
     raw_message := None; bot := b;
     send := fun _ => None; get_platform_adapter := fun _ => None;
     send_message := fun _ _ => None |}.

(** An inbound chat message on which every [event.send] raises [e]. *)
Definition chat_event_unsendable (b : Bot) (sender body : str)
    (chain : list Comp) (e : str) : AstrMessageEvent :=
  {| get_sender_id := sender; message_str := body; message := Some chain;
     raw_message := None; bot := b;
     send := fun _ => Some e; get_platform_adapter := fun _ => None;
     send_message := fun _ _ => None |}.

(** An inbound gateway request event. *)
Definition request_event (raw : gmap str str) : AstrMessageEvent :=
  {| get_sender_id := []; message_str := []; message := None;
     raw_message := Some raw; bot := bot_returning;
     send := fun _ => None; get_platform_adapter := fun _ => None;
     send_message := fun _ _ => None |}.

Definition ADMIN : str := Eval vm_compute in u "10001".
Definition STRANGER : str := Eval vm_compute in u "20002".

(** The plugin configured with one administrator, nothing pending. *)
Definition fresh : FriendInviteManager := init [ADMIN] [].

(** The plugin after [recordFriendRequest("111", "", "flagA")]. *)
Definition with_friend_111 : FriendInviteManager :=
  state_of (_handle_friend_request
              (request_event (friend_event (u "111") [] (u "flagA")))
              (friend_event (u "111") [] (u "flagA")) fresh).

(** The plugin after [recordGroupInvite("900", "111", "flagB")]. *)
Definition with_group_900 : FriendInviteManager :=
  state_of (_handle_group_invite
              (request_event (group_event (u "900") (u "111") (u "flagB")))
              (group_event (u "900") (u "111") (u "flagB")) fresh).

(** The quoted text [【好友申请】\n申请人QQ: 111\n申请ID: 111_flagA\n]. *)
Definition quoted_111 : str :=
  Eval vm_compute in
    u "【好友申请】" ++ [LF] ++ u "申请人QQ: 111" ++ [LF] ++ u "申请ID: 111_flagA" ++ [LF].

(** The quoted text [【群邀请】\n群号: 900\n邀请人QQ: 111\n邀请ID: 900_111_flagB\n]. *)
Definition quoted_900 : str :=
  Eval vm_compute in
    u "【群邀请】" ++ [LF] ++ u "群号: 900" ++ [LF] ++ u "邀请人QQ: 111" ++ [LF]
    ++ u "邀请ID: 900_111_flagB" ++ [LF].

(** The body [删除好友 222]. *)
Definition body_delete_222 : str := Eval vm_compute in u "删除好友 222".

(** ** Further projections of a trace *)

(** The private messages ([adapter.send_message]) of a trace: the
    administrator addressed and the text. *)
Definition private_messages (t : list Effect) : list (str * str) :=
  omap (fun e => match e with SendMessage a x => Some (a, x) | _ => None end) t.

(** The texts passed to [logger.error]. *)
Definition error_logs (t : list Effect) : list str :=
  omap (fun e => match e with LogError x => Some x | _ => None end) t.

(** What one turn of the loop of [_notify_admins] sends: the text to the
    administrator, or nothing when the adapter could not be fetched. *)
Definition notified (event : AstrMessageEvent) (text admin_qq : str) :
    option (str * str) :=
  match get_platform_adapter event admin_qq with
  | None => Some (admin_qq, text)
  | Some _ => None
  end.

(** The failure of one turn of the loop, if any: that of fetching the
    adapter, else that of the send. *)
Definition notify_failure (event : AstrMessageEvent) (text admin_qq : str) :
    option str :=
  match get_platform_adapter event admin_qq with
  | Some e => Some e
  | None => send_message event admin_qq text
  end.

(** No decision is dispatched on a message: its body has neither keyword, or
    its quoted text matches no pending record. *)
Definition undecided (event : AstrMessageEvent) (self : FriendInviteManager) : Prop :=
  (contains KW_APPROVE (message_str event) = false
   ∧ contains KW_REJECT (message_str event) = false)
  ∨ ((forall i, ¬ friend_matched self (quoted_text_of event) i)
     ∧ (forall i, ¬ group_matched self (quoted_text_of event) i)).

(** * Properties *)

(** ** Running the monad *)

Section Run.

Context {A B : Type}.

Lemma state_bind (m : M A) (k : A -> M B) self :
  state_of (bind m k self) = state_of (k (m self).1.1 (state_of (m self))).
Proof. reflexivity. Qed.

Lemma trace_bind (m : M A) (k : A -> M B) self :
  trace_of (bind m k self) =
  trace_of (m self) ++ trace_of (k (m self).1.1 (state_of (m self))).
Proof. reflexivity. Qed.

End Run.

Lemma bind_get {A} (k : FriendInviteManager -> M A) self :
  bind get k self = k self self.
Proof. unfold bind, get. cbn. by destruct (k self self) as [[a s] t]. Qed.

Lemma calls_app t1 t2 : calls (t1 ++ t2) = calls t1 ++ calls t2.
Proof. unfold calls. apply omap_app. Qed.

Lemma sends_app t1 t2 : sends (t1 ++ t2) = sends t1 ++ sends t2.
Proof. unfold sends. apply omap_app. Qed.

(** ** Notifications leave the registries alone *)

(** One turn of the loop: the adapter, then the send, the first failure
    logged. *)
Lemma notify_each_cons event text a rest self :
  notify_each event text (a :: rest) self =
  (tt, state_of (notify_each event text rest self),
   match get_platform_adapter event a with
   | Some e => [LogError (MSG_notify_failed_1 ++ a ++ MSG_notify_failed_2 ++ e)]
   | None =>
     SendMessage a text ::
     match send_message event a text with
     | Some e => [LogError (MSG_notify_failed_1 ++ a ++ MSG_notify_failed_2 ++ e)]
     | None => []
     end
   end ++ trace_of (notify_each event text rest self)).
Proof.
  cbn [notify_each].
  unfold try_except, and_then, event_get_platform_adapter, adapter_send_message,
    bind, emit, skip, ret, state_of, trace_of.
  destruct (get_platform_adapter event a), (send_message event a text);
    cbn; by destruct (notify_each event text rest self) as [[[] s] t].
Qed.

Lemma notify_each_state event text admins self :
  state_of (notify_each event text admins self) = self.
Proof.
  induction admins as [|a rest IH]; [done|].
  by rewrite notify_each_cons.
Qed.

Lemma notify_each_calls event text admins self :
  calls (trace_of (notify_each event text admins self)) = [].
Proof.
  induction admins as [|a rest IH]; [done|].
  rewrite notify_each_cons. cbn [trace_of snd]. rewrite calls_app, IH.
  by destruct (get_platform_adapter event a), (send_message event a text).
Qed.

Lemma _notify_admins_state text event self :
  state_of (_notify_admins text event self) = self.
Proof.
  unfold _notify_admins. rewrite state_bind. cbn [get fst snd state_of].
  destruct (admin_qq_list self); [done|]. apply notify_each_state.
Qed.

Lemma _notify_admins_calls text event self :
  calls (trace_of (_notify_admins text event self)) = [].
Proof.
  unfold _notify_admins. rewrite trace_bind, calls_app.
  cbn [get fst snd state_of trace_of calls omap app].
  destruct (admin_qq_list self); [done|]. apply notify_each_calls.
Qed.

(** ** Recording *)

Lemma _handle_friend_request_state event request_data self :
  state_of (_handle_friend_request event request_data self) =
  let user_id := dict_get request_data K_user_id in
  let comment := dict_get request_data K_comment in
  let flag := dict_get request_data K_flag in
  let request_id := friend_request_id user_id flag in
  set_pending_friend_requests
    (insert request_id (Friend.Info request_id user_id comment flag)) self.
Proof.
  unfold _handle_friend_request. rewrite state_bind.
  apply _notify_admins_state.
Qed.

Lemma _handle_group_invite_state event request_data self :
  state_of (_handle_group_invite event request_data self) =
  let group_id := dict_get request_data K_group_id in
  let user_id := dict_get request_data K_user_id in
  let flag := dict_get request_data K_flag in
  let request_id := group_invite_id group_id user_id flag in
  set_pending_group_invites
    (insert request_id (Group.Info request_id group_id user_id flag)) self.
Proof.
  unfold _handle_group_invite. rewrite state_bind.
  apply _notify_admins_state.
Qed.

Lemma friend_event_fields user_id comment flag :
  dict_get (friend_event user_id comment flag) K_user_id = user_id ∧
  dict_get (friend_event user_id comment flag) K_comment = comment ∧
  dict_get (friend_event user_id comment flag) K_flag = flag.
Proof.
  unfold dict_get, friend_event. by simplify_map_eq.
Qed.

Lemma group_event_fields group_id user_id flag :
  dict_get (group_event group_id user_id flag) K_group_id = group_id ∧
  dict_get (group_event group_id user_id flag) K_user_id = user_id ∧
  dict_get (group_event group_id user_id flag) K_flag = flag.
Proof.
  unfold dict_get, group_event. by simplify_map_eq.
Qed.

Lemma record_friend_state event user_id comment flag self :
  state_of (_handle_friend_request event (friend_event user_id comment flag) self) =
  set_pending_friend_requests
    (insert (friend_request_id user_id flag)
       (Friend.Info (friend_request_id user_id flag) user_id comment flag)) self.
Proof.
  rewrite _handle_friend_request_state.
  destruct (friend_event_fields user_id comment flag) as (-> & -> & ->). done.
Qed.

(** C6: recording a friend request and looking its correlation id up at once
    gives back the stored record: the same requester id, comment, approval
    token and correlation id. *)
Theorem record_then_lookup_friend event self (requesterId comment approvalToken : str) :
  let correlationId := friend_request_id requesterId approvalToken in
  pending_friend_requests
    (state_of (_handle_friend_request event
                 (friend_event requesterId comment approvalToken) self))
    !! correlationId
  = Some {| Friend.request_id := correlationId;
            Friend.user_id := requesterId;
            Friend.comment := comment;
            Friend.flag := approvalToken |}.
Proof.
  intros rid. rewrite record_friend_state. cbn. apply lookup_insert_eq.
Qed.

(** C7: of two friend requests recorded with the same requester id and
    approval token, the second takes the place of the first under the one
    correlation id: the lookup gives the second record, and the registry is
    the one that recording the second alone would have left. *)
Theorem record_friend_last_write_wins event1 event2 self
    (requesterId approvalToken comment1 comment2 : str) :
  let correlationId := friend_request_id requesterId approvalToken in
  let self1 := state_of (_handle_friend_request event1
                           (friend_event requesterId comment1 approvalToken) self) in
  let self2 := state_of (_handle_friend_request event2
                           (friend_event requesterId comment2 approvalToken) self1) in
  pending_friend_requests self2 !! correlationId
    = Some (Friend.Info correlationId requesterId comment2 approvalToken)
  ∧ pending_friend_requests self2
    = pending_friend_requests
        (state_of (_handle_friend_request event2
                     (friend_event requesterId comment2 approvalToken) self))
  ∧ pending_group_invites self2 = pending_group_invites self.
Proof.
  intros rid self1 self2. subst self1 self2.
  rewrite !record_friend_state. cbn.
  split; [apply lookup_insert_eq|].
  split; [apply insert_insert_eq|done].
Qed.

(** ** Correlation ids *)

(** A separator that occurs in neither prefix cuts both strings at the same
    place. *)
Lemma app_sep_inj (c : N) (a1 a2 b1 b2 : str) :
  c ∉ a1 -> c ∉ a2 ->
  a1 ++ c :: b1 = a2 ++ c :: b2 -> a1 = a2 ∧ b1 = b2.
Proof.
  revert a2. induction a1 as [|x a1 IH]; intros [|y a2] H1 H2 E; cbn in E.
  - by injection E as ->.
  - injection E as -> _. exfalso. apply H2. left.
  - injection E as -> _. exfalso. apply H1. left.
  - injection E as -> E.
    apply not_elem_of_cons in H1 as [_ H1].
    apply not_elem_of_cons in H2 as [_ H2].
    destruct (IH a2 H1 H2 E) as [-> ->]. done.
Qed.

Lemma friend_request_id_inj (u1 u2 f1 f2 : str) :
  UNDERSCORE ∉ u1 -> UNDERSCORE ∉ u2 ->
  friend_request_id u1 f1 = friend_request_id u2 f2 -> u1 = u2 ∧ f1 = f2.
Proof. unfold friend_request_id. cbn [app]. apply app_sep_inj. Qed.

Lemma group_invite_id_inj (g1 g2 u1 u2 f1 f2 : str) :
  UNDERSCORE ∉ g1 -> UNDERSCORE ∉ g2 -> UNDERSCORE ∉ u1 -> UNDERSCORE ∉ u2 ->
  group_invite_id g1 u1 f1 = group_invite_id g2 u2 f2 ->
  g1 = g2 ∧ u1 = u2 ∧ f1 = f2.
Proof.
  unfold group_invite_id. cbn [app]. intros Hg1 Hg2 Hu1 Hu2 E.
  apply app_sep_inj in E as [-> E]; [|done..].
  apply app_sep_inj in E as [-> ->]; done.
Qed.

(** C1, as stated, fails: the requester ids [a_b] and [a] with the different
    approval tokens [c] and [b_c] get the one correlation id [a_b_c], and the
    second recording replaces the first. *)
Lemma correlation_id_collision_counterexample :
  u "c" ≠ u "b_c"
  ∧ friend_request_id (u "a_b") (u "c") = friend_request_id (u "a") (u "b_c")
  ∧ let event := {| get_sender_id := []; message_str := []; message := None;
                    raw_message := None;
                    bot := {| has_call_action := true; call_action := fun _ => None |};
                    send := fun _ => None;
                    get_platform_adapter := fun _ => None;
                    send_message := fun _ _ => None |} in
    let self1 := state_of (_handle_friend_request event
                             (friend_event (u "a_b") [] (u "c")) (init [] [])) in
    let self2 := state_of (_handle_friend_request event
                             (friend_event (u "a") [] (u "b_c")) self1) in
    Friend.flag <$> (pending_friend_requests self1 !! u "a_b_c") = Some (u "c")
    ∧ Friend.flag <$> (pending_friend_requests self2 !! u "a_b_c") = Some (u "b_c")
    ∧ size (pending_friend_requests self2) = 1%nat.
Proof. vm_compute. split; [discriminate|done]. Qed.

(** C1, amended: for requester, group and inviter ids without an underscore,
    two friend requests (two group invites) get the same correlation id
    exactly when their ids and approval tokens are the same; in particular
    different approval tokens give different correlation ids. *)
Theorem correlation_id_unique (g1 g2 u1 u2 f1 f2 : str) :
  UNDERSCORE ∉ g1 -> UNDERSCORE ∉ g2 -> UNDERSCORE ∉ u1 -> UNDERSCORE ∉ u2 ->
  (friend_request_id u1 f1 = friend_request_id u2 f2 ↔ u1 = u2 ∧ f1 = f2)
  ∧ (group_invite_id g1 u1 f1 = group_invite_id g2 u2 f2
     ↔ g1 = g2 ∧ u1 = u2 ∧ f1 = f2)
  ∧ (f1 ≠ f2 ->
     friend_request_id u1 f1 ≠ friend_request_id u2 f2
     ∧ group_invite_id g1 u1 f1 ≠ group_invite_id g2 u2 f2).
Proof.
  intros Hg1 Hg2 Hu1 Hu2. split; [|split].
  - split; [by apply friend_request_id_inj|]. by intros [-> ->].
  - split; [by apply group_invite_id_inj|]. by intros (-> & -> & ->).
  - intros Hf. split; intros E.
    + apply friend_request_id_inj in E as [_ ?]; done.
    + apply group_invite_id_inj in E as (_ & _ & ?); done.
Qed.

Lemma no_underscore_check (s : str) :
  forallb (fun c => negb (c =? UNDERSCORE)%N) s = true -> UNDERSCORE ∉ s.
Proof.
  induction s as [|c s IH]; cbn; intros H.
  - apply not_elem_of_nil.
  - apply andb_prop in H as [Hc Hs]. apply not_elem_of_cons. split; [|by apply IH].
    intros <-. discriminate Hc.
Qed.

Lemma correlation_id_unique_witness :
  friend_request_id (u "111") (u "flagA") ≠ friend_request_id (u "222") (u "flagB")
  ∧ group_invite_id (u "900") (u "111") (u "flagA")
    ≠ group_invite_id (u "901") (u "222") (u "flagB").
Proof.
  refine (proj2 (proj2 (correlation_id_unique (u "900") (u "901") (u "111") (u "222")
                          (u "flagA") (u "flagB") _ _ _ _)) _).
  - apply no_underscore_check. reflexivity.
  - apply no_underscore_check. reflexivity.
  - apply no_underscore_check. reflexivity.
  - apply no_underscore_check. reflexivity.
  - vm_compute. discriminate.
Defined.

(** ** Replies: the actuator's outcome decides the registry *)

Lemma _reply_friend_request_present event self request_id approve info :
  pending_friend_requests self !! request_id = Some info ->
  has_call_action (bot event) = true ->
  _reply_friend_request event request_id approve self =
  let a := set_friend_add_request (Friend.flag info) approve in
  let text := (if approve then MSG_friend_approved else MSG_friend_rejected)
              ++ Friend.user_id info in
  match call_action (bot event) a with
  | None =>
    (tt, set_pending_friend_requests (delete request_id) self,
     CallAction a :: Send text ::
     match send event text with
     | None => []
     | Some e => [LogError (MSG_friend_failed ++ e); Send (MSG_friend_failed ++ e)]
     end)
  | Some e =>
    (tt, self,
     [CallAction a; LogError (MSG_friend_failed ++ e); Send (MSG_friend_failed ++ e)])
  end.
Proof.
  intros Hin Hbot. unfold _reply_friend_request. rewrite bind_get, Hin, Hbot.
  cbn [negb].
  unfold try_except, and_then, step, bot_call_action, event_send, bind, emit,
    modify, skip, ret.
  cbn [fst snd app].
  destruct (call_action _ _); [done|].
  destruct approve; cbn [fst snd app]; by destruct (send event _).
Qed.

Lemma _reply_group_invite_present event self request_id approve info :
  pending_group_invites self !! request_id = Some info ->
  has_call_action (bot event) = true ->
  _reply_group_invite event request_id approve self =
  let a := set_group_add_request (Group.flag info) V_add approve in
  let text :=
    if approve
    then MSG_group_approved_1 ++ Group.group_id info ++ MSG_group_approved_2
    else MSG_group_rejected_1 ++ Group.group_id info ++ MSG_group_rejected_2 in
  match call_action (bot event) a with
  | None =>
    (tt, set_pending_group_invites (delete request_id) self,
     CallAction a :: Send text ::
     match send event text with
     | None => []
     | Some e => [LogError (MSG_group_failed ++ e); Send (MSG_group_failed ++ e)]
     end)
  | Some e =>
    (tt, self,
     [CallAction a; LogError (MSG_group_failed ++ e); Send (MSG_group_failed ++ e)])
  end.
Proof.
  intros Hin Hbot. unfold _reply_group_invite. rewrite bind_get, Hin, Hbot.
  cbn [negb].
  unfold try_except, and_then, step, bot_call_action, event_send, bind, emit,
    modify, skip, ret.
  cbn [fst snd app].
  destruct (call_action _ _); [done|].
  destruct approve; cbn [fst snd app]; by destruct (send event _).
Qed.

Lemma _reply_friend_request_present_calls event self request_id approve info :
  pending_friend_requests self !! request_id = Some info ->
  has_call_action (bot event) = true ->
  calls (trace_of (_reply_friend_request event request_id approve self))
  = [set_friend_add_request (Friend.flag info) approve].
Proof.
  intros Hin Hbot. rewrite (_reply_friend_request_present _ _ _ _ _ Hin Hbot).
  cbn zeta. destruct (call_action _ _); [done|]. by destruct (send event _).
Qed.

Lemma _reply_group_invite_present_calls event self request_id approve info :
  pending_group_invites self !! request_id = Some info ->
  has_call_action (bot event) = true ->
  calls (trace_of (_reply_group_invite event request_id approve self))
  = [set_group_add_request (Group.flag info) V_add approve].
Proof.
  intros Hin Hbot. rewrite (_reply_group_invite_present _ _ _ _ _ Hin Hbot).
  cbn zeta. destruct (call_action _ _); [done|]. by destruct (send event _).
Qed.

Lemma _reply_friend_request_absent event self request_id approve :
  pending_friend_requests self !! request_id = None ->
  _reply_friend_request event request_id approve self =
  (tt, self, [Send MSG_friend_not_found]).
Proof.
  intros Hout. unfold _reply_friend_request, bind, get. cbn [fst snd].
  by rewrite Hout.
Qed.

Lemma _reply_group_invite_absent event self request_id approve :
  pending_group_invites self !! request_id = None ->
  _reply_group_invite event request_id approve self =
  (tt, self, [Send MSG_group_not_found]).
Proof.
  intros Hout. unfold _reply_group_invite, bind, get. cbn [fst snd].
  by rewrite Hout.
Qed.

(** C3: when a reply reaches the actuator ([set_friend_add_request] or
    [set_group_add_request]) and the call returns, the pending record is
    removed from its registry and the confirmation is sent (should that send
    itself raise, the record stays removed and the text of its failure is
    sent after it); when the call raises, the plugin is left as it was, the
    record still in its registry, and the one message sent ends with the
    failure text; the same reply sent again then makes the same call, and
    removes the record once it returns. *)
Theorem reply_actuator_outcome event self request_id approve :
  has_call_action (bot event) = true ->
  (forall info, pending_friend_requests self !! request_id = Some info ->
     let a := set_friend_add_request (Friend.flag info) approve in
     let r := _reply_friend_request event request_id approve self in
     calls (trace_of r) = [a] ∧
     match call_action (bot event) a with
     | None =>
       pending_friend_requests (state_of r)
         = delete request_id (pending_friend_requests self)
       ∧ pending_friend_requests (state_of r) !! request_id = None
       ∧ pending_group_invites (state_of r) = pending_group_invites self
       ∧ (let text := (if approve then MSG_friend_approved else MSG_friend_rejected)
                      ++ Friend.user_id info in
          sends (trace_of r)
          = text :: match send event text with
                    | None => []
                    | Some e => [MSG_friend_failed ++ e]
                    end)
     | Some e =>
       state_of r = self
       ∧ pending_friend_requests (state_of r) !! request_id = Some info
       ∧ sends (trace_of r) = [MSG_friend_failed ++ e]
       ∧ (forall event', has_call_action (bot event') = true ->
            call_action (bot event') a = None ->
            let r' := _reply_friend_request event' request_id approve (state_of r) in
            calls (trace_of r') = [a]
            ∧ pending_friend_requests (state_of r') !! request_id = None)
     end)
  ∧
  (forall info, pending_group_invites self !! request_id = Some info ->
     let a := set_group_add_request (Group.flag info) V_add approve in
     let r := _reply_group_invite event request_id approve self in
     calls (trace_of r) = [a] ∧
     match call_action (bot event) a with
     | None =>
       pending_group_invites (state_of r)
         = delete request_id (pending_group_invites self)
       ∧ pending_group_invites (state_of r) !! request_id = None
       ∧ pending_friend_requests (state_of r) = pending_friend_requests self
       ∧ (let text :=
            if approve
            then MSG_group_approved_1 ++ Group.group_id info ++ MSG_group_approved_2
            else MSG_group_rejected_1 ++ Group.group_id info ++ MSG_group_rejected_2 in
          sends (trace_of r)
          = text :: match send event text with
                    | None => []
                    | Some e => [MSG_group_failed ++ e]
                    end)
     | Some e =>
       state_of r = self
       ∧ pending_group_invites (state_of r) !! request_id = Some info
       ∧ sends (trace_of r) = [MSG_group_failed ++ e]
       ∧ (forall event', has_call_action (bot event') = true ->
            call_action (bot event') a = None ->
            let r' := _reply_group_invite event' request_id approve (state_of r) in
            calls (trace_of r') = [a]
            ∧ pending_group_invites (state_of r') !! request_id = None)
     end).
Proof.
  intros Hbot. split; intros info Hin a r; subst a r.
  - rewrite (_reply_friend_request_present _ _ _ _ _ Hin Hbot). cbn zeta.
    destruct (call_action _ _) as [e|]; cbn [state_of trace_of fst snd].
    + do 4 (split; [done|]). intros event' Hbot' Hret.
      rewrite (_reply_friend_request_present _ _ _ _ _ Hin Hbot'). cbn zeta.
      rewrite Hret. cbn [state_of trace_of fst snd].
      split; [by destruct (send event' _)|]. cbn. by rewrite lookup_delete_eq.
    + split; [by destruct (send event _)|].
      cbn. rewrite lookup_delete_eq. do 3 (split; [done|]).
      by destruct (send event _).
  - rewrite (_reply_group_invite_present _ _ _ _ _ Hin Hbot). cbn zeta.
    destruct (call_action _ _) as [e|]; cbn [state_of trace_of fst snd].
    + do 4 (split; [done|]). intros event' Hbot' Hret.
      rewrite (_reply_group_invite_present _ _ _ _ _ Hin Hbot'). cbn zeta.
      rewrite Hret. cbn [state_of trace_of fst snd].
      split; [by destruct (send event' _)|]. cbn. by rewrite lookup_delete_eq.
    + split; [by destruct (send event _)|].
      cbn. rewrite lookup_delete_eq. do 3 (split; [done|]).
      by destruct (send event _).
Qed.

Lemma reply_actuator_outcome_witness :
  pending_friend_requests
    (state_of (_reply_friend_request (chat_event bot_returning ADMIN (u "同意") [])
                 (u "111_flagA") true with_friend_111))
    !! u "111_flagA" = None
  ∧ state_of (_reply_group_invite
                (chat_event (bot_raising (u "timeout")) ADMIN (u "拒绝") [])
                (u "900_111_flagB") false with_group_900)
    = with_group_900
  ∧ (let r := _reply_friend_request
                (chat_event_unsendable bot_returning ADMIN (u "同意") [] (u "closed"))
                (u "111_flagA") true with_friend_111 in
     pending_friend_requests (state_of r) !! u "111_flagA" = None
     ∧ sends (trace_of r)
       = [MSG_friend_approved ++ u "111"; MSG_friend_failed ++ u "closed"]).
Proof.
  split; [|split].
  - pose proof (proj1 (reply_actuator_outcome
                         (chat_event bot_returning ADMIN (u "同意") [])
                         with_friend_111 (u "111_flagA") true eq_refl)
                  (Friend.Info (u "111_flagA") (u "111") [] (u "flagA")) eq_refl)
      as [_ H].
    exact (proj1 (proj2 H)).
  - pose proof (proj2 (reply_actuator_outcome
                         (chat_event (bot_raising (u "timeout")) ADMIN (u "拒绝") [])
                         with_group_900 (u "900_111_flagB") false eq_refl)
                  (Group.Info (u "900_111_flagB") (u "900") (u "111") (u "flagB"))
                  eq_refl)
      as [_ H].
    exact (proj1 H).
  - pose proof (proj1 (reply_actuator_outcome
                         (chat_event_unsendable bot_returning ADMIN (u "同意") []
                            (u "closed"))
                         with_friend_111 (u "111_flagA") true eq_refl)
                  (Friend.Info (u "111_flagA") (u "111") [] (u "flagA")) eq_refl)
      as [_ H].
    exact (conj (proj1 (proj2 H)) (proj2 (proj2 (proj2 H)))).
Defined.

(** ** The message handler, stage by stage *)

Lemma on_all_message_stranger event self :
  get_sender_id event ∉ admin_qq_list self ->
  on_all_message event self = (tt, self, []).
Proof.
  intros Hno. unfold on_all_message. rewrite bind_get.
  unfold _is_admin. by rewrite bool_decide_eq_false_2.
Qed.

Lemma on_all_message_admin event self :
  get_sender_id event ∈ admin_qq_list self ->
  on_all_message event self =
  match strip (message_str event) with
  | [] => (tt, self, [])
  | msg => friend_request_reply event (quoted_text_of event) msg self
  end.
Proof.
  intros Hyes. unfold on_all_message. rewrite bind_get.
  unfold _is_admin. rewrite bool_decide_eq_true_2 by done. cbn [negb].
  by destruct (strip (message_str event)).
Qed.

Lemma truthy_Some (request_id : str) :
  request_id ≠ [] -> truthy (Some request_id) = Some request_id.
Proof. by destruct request_id. Qed.

Lemma truthy_inv r (request_id : str) :
  truthy r = Some request_id -> r = Some request_id ∧ request_id ≠ [].
Proof. destruct r as [[|c s]|]; cbn; intros E; by simplify_eq. Qed.

Lemma friend_request_reply_matched event self quoted_text msg request_id :
  friend_matched self quoted_text request_id ->
  friend_request_reply event quoted_text msg self =
  if contains KW_APPROVE msg then _reply_friend_request event request_id true self
  else if contains KW_REJECT msg then _reply_friend_request event request_id false self
  else group_invite_reply event quoted_text msg self.
Proof.
  intros (Hm & Hid & Hne & Hin). unfold friend_request_reply. rewrite bind_get.
  rewrite Hm, Hid, (truthy_Some _ Hne), bool_decide_eq_true_2 by done.
  by repeat case_match.
Qed.

Lemma group_invite_reply_matched event self quoted_text msg request_id :
  group_matched self quoted_text request_id ->
  group_invite_reply event quoted_text msg self =
  if contains KW_APPROVE msg then _reply_group_invite event request_id true self
  else if contains KW_REJECT msg then _reply_group_invite event request_id false self
  else delete_command event msg self.
Proof.
  intros (Hm & Hid & Hne & Hin). unfold group_invite_reply. rewrite bind_get.
  rewrite Hm, Hid, (truthy_Some _ Hne), bool_decide_eq_true_2 by done.
  by repeat case_match.
Qed.

(** Without a matched friend reply the handler goes on to the group check. *)
Lemma friend_request_reply_unmatched event self quoted_text msg :
  (forall request_id, ¬ friend_matched self quoted_text request_id) ->
  friend_request_reply event quoted_text msg self =
  group_invite_reply event quoted_text msg self.
Proof.
  intros Hno. unfold friend_request_reply. rewrite bind_get.
  destruct (contains FRIEND_MARKER quoted_text) eqn:Hm; [|done].
  destruct (truthy _) as [request_id|] eqn:Hid; [|done].
  apply truthy_inv in Hid as [Hid Hne].
  case_bool_decide as Hin; [|done].
  by destruct (Hno request_id).
Qed.

Lemma group_invite_reply_unmatched event self quoted_text msg :
  (forall request_id, ¬ group_matched self quoted_text request_id) ->
  group_invite_reply event quoted_text msg self = delete_command event msg self.
Proof.
  intros Hno. unfold group_invite_reply. rewrite bind_get.
  destruct (contains GROUP_MARKER quoted_text) eqn:Hm; [|done].
  destruct (truthy _) as [request_id|] eqn:Hid; [|done].
  apply truthy_inv in Hid as [Hid Hne].
  case_bool_decide as Hin; [|done].
  by destruct (Hno request_id).
Qed.

Lemma friend_matched_dec self quoted_text :
  (exists request_id, friend_matched self quoted_text request_id)
  ∨ (forall request_id, ¬ friend_matched self quoted_text request_id).
Proof.
  unfold friend_matched.
  destruct (contains FRIEND_MARKER quoted_text); [|right; by intros r' (? & _)].
  destruct (extract_request_id _ _) as [r|]; [|right; by intros r' (_ & ? & _)].
  destruct (decide (r = [])) as [->|Hne];
    [right; by intros r' (_ & [= <-] & ? & _)|].
  destruct (pending_friend_requests self !! r) as [info|] eqn:Hin.
  - left. exists r. by rewrite Hin.
  - right. intros r' (_ & [= <-] & _ & [? Hs]). congruence.
Qed.

Lemma group_matched_dec self quoted_text :
  (exists request_id, group_matched self quoted_text request_id)
  ∨ (forall request_id, ¬ group_matched self quoted_text request_id).
Proof.
  unfold group_matched.
  destruct (contains GROUP_MARKER quoted_text); [|right; by intros r' (? & _)].
  destruct (extract_request_id _ _) as [r|]; [|right; by intros r' (_ & ? & _)].
  destruct (decide (r = [])) as [->|Hne];
    [right; by intros r' (_ & [= <-] & ? & _)|].
  destruct (pending_group_invites self !! r) as [info|] eqn:Hin.
  - left. exists r. by rewrite Hin.
  - right. intros r' (_ & [= <-] & _ & [? Hs]). congruence.
Qed.

(** The direct commands: one call at most, the registries untouched. *)
Lemma _delete_friend_supported event user_id self :
  has_call_action (bot event) = true ->
  _delete_friend event user_id self =
  (tt, self,
   CallAction (delete_friend user_id) ::
   match call_action (bot event) (delete_friend user_id) with
   | None =>
     Send (MSG_deleted ++ user_id) ::
     match send event (MSG_deleted ++ user_id) with
     | None => []
     | Some e => [LogError (MSG_delete_failed ++ e); Send (MSG_delete_failed ++ e)]
     end
   | Some e => [LogError (MSG_delete_failed ++ e); Send (MSG_delete_failed ++ e)]
   end).
Proof.
  intros Hbot. unfold _delete_friend. rewrite Hbot. cbn [negb].
  unfold try_except, and_then, bot_call_action, event_send, bind, emit, skip, ret.
  cbn [fst snd app].
  destruct (call_action _ _); [done|]. cbn [fst snd app].
  by destruct (send event _).
Qed.

Lemma _ban_user_supported event user_id self :
  has_call_action (bot event) = true ->
  _ban_user event user_id self =
  (tt, self,
   CallAction (set_friend_blacklist user_id true) ::
   match call_action (bot event) (set_friend_blacklist user_id true) with
   | None =>
     Send (MSG_banned ++ user_id) ::
     match send event (MSG_banned ++ user_id) with
     | None => []
     | Some e => [LogError (MSG_ban_failed ++ e); Send (MSG_ban_failed ++ e)]
     end
   | Some e => [LogError (MSG_ban_failed ++ e); Send (MSG_ban_failed ++ e)]
   end).
Proof.
  intros Hbot. unfold _ban_user. rewrite Hbot. cbn [negb].
  unfold try_except, and_then, bot_call_action, event_send, bind, emit, skip, ret.
  cbn [fst snd app].
  destruct (call_action _ _); [done|]. cbn [fst snd app].
  by destruct (send event _).
Qed.

Lemma _delete_friend_run event user_id self :
  state_of (_delete_friend event user_id self) = self
  ∧ calls (trace_of (_delete_friend event user_id self))
    = if has_call_action (bot event) then [delete_friend user_id] else [].
Proof.
  destruct (has_call_action (bot event)) eqn:Hbot.
  - rewrite (_delete_friend_supported _ _ _ Hbot). split; [done|].
    cbn [trace_of snd]. destruct (call_action _ _); [done|].
    by destruct (send event _).
  - unfold _delete_friend. by rewrite Hbot.
Qed.

Lemma _ban_user_run event user_id self :
  state_of (_ban_user event user_id self) = self
  ∧ calls (trace_of (_ban_user event user_id self))
    = if has_call_action (bot event) then [set_friend_blacklist user_id true] else [].
Proof.
  destruct (has_call_action (bot event)) eqn:Hbot.
  - rewrite (_ban_user_supported _ _ _ Hbot). split; [done|].
    cbn [trace_of snd]. destruct (call_action _ _); [done|].
    by destruct (send event _).
  - unfold _ban_user. by rewrite Hbot.
Qed.

Lemma ban_command_run event msg self :
  state_of (ban_command event msg self) = self
  ∧ (calls (trace_of (ban_command event msg self)) = []
     ∨ exists user_id, calls (trace_of (ban_command event msg self))
                       = [set_friend_blacklist user_id true]).
Proof.
  unfold ban_command. destruct (startswith _ _); [|by auto].
  destruct (split_ws1 msg) as [|w [|arg [|]]]; try by auto.
  destruct (_ban_user_run event (strip arg) self) as [-> ->].
  split; [done|]. destruct (has_call_action _); eauto.
Qed.

Lemma delete_command_run event msg self :
  state_of (delete_command event msg self) = self
  ∧ (calls (trace_of (delete_command event msg self)) = []
     ∨ (exists user_id, calls (trace_of (delete_command event msg self))
                        = [delete_friend user_id])
     ∨ (exists user_id, calls (trace_of (delete_command event msg self))
                        = [set_friend_blacklist user_id true])).
Proof.
  assert (Hban : state_of (ban_command event msg self) = self
    ∧ (calls (trace_of (ban_command event msg self)) = []
       ∨ (exists user_id, calls (trace_of (ban_command event msg self))
                          = [delete_friend user_id])
       ∨ (exists user_id, calls (trace_of (ban_command event msg self))
                          = [set_friend_blacklist user_id true]))).
  { destruct (ban_command_run event msg self) as [? [?|?]]; auto. }
  unfold delete_command. destruct (startswith _ _); [|done].
  destruct (split_ws1 msg) as [|w [|arg [|]]]; try done.
  destruct (_delete_friend_run event (strip arg) self) as [-> ->].
  split; [done|]. destruct (has_call_action _); eauto.
Qed.

(** ** Facts on the string operations *)

Section StrFacts.

Local Open Scope N_scope.

Lemma startswith_app (p b : str) : startswith p (p ++ b) = true.
Proof. induction p as [|c p IH]; [done|]. cbn. by rewrite N.eqb_refl. Qed.

Lemma startswith_spec (p s : str) :
  startswith p s = true <-> exists b, s = p ++ b.
Proof.
  split.
  - revert s. induction p as [|c p IH]; intros s H; [by exists s|].
    destruct s as [|d s]; [done|]. cbn in H.
    apply andb_prop in H as [Hc Hs]. apply N.eqb_eq in Hc as ->.
    destruct (IH _ Hs) as [b ->]. by exists b.
  - intros [b ->]. apply startswith_app.
Qed.

Lemma contains_unfold (p s : str) :
  contains p s =
  startswith p s || match s with [] => false | _ :: r => contains p r end.
Proof. by destruct s. Qed.

Lemma contains_spec (p s : str) :
  contains p s = true <-> exists a b, s = a ++ p ++ b.
Proof.
  split.
  - induction s as [|c s IH]; cbn; intros H.
    + apply orb_prop in H as [H|H]; [|done].
      apply startswith_spec in H as [b ->]. by exists [], b.
    + apply orb_prop in H as [H|H].
      * apply startswith_spec in H as [b ->]. by exists [], b.
      * destruct (IH H) as (a & b & ->). by exists (c :: a), b.
  - intros (a & b & ->). induction a as [|c a IH].
    + cbn [app]. rewrite contains_unfold. by rewrite startswith_app.
    + cbn. rewrite IH. apply orb_true_r.
Qed.

Lemma lstrip_spec (s : str) :
  exists ws, s = ws ++ lstrip s ∧ forallb isspace ws = true.
Proof.
  induction s as [|c s (ws & E & Hws)]; [by exists []|].
  cbn. destruct (isspace c) eqn:Hc.
  - exists (c :: ws). cbn. rewrite Hc, Hws. by rewrite <-E.
  - by exists [].
Qed.

Lemma rstrip_spec (s : str) :
  exists ws, s = rstrip s ++ ws ∧ forallb isspace ws = true.
Proof.
  induction s as [|c s (ws & E & Hws)]; [by exists []|].
  cbn. destruct (rstrip s) as [|d r] eqn:Hr.
  - destruct (isspace c) eqn:Hc.
    + exists (c :: ws). cbn in E. cbn. rewrite Hc, Hws. by rewrite E at 1.
    + exists ws. cbn in E. cbn. by rewrite E at 1.
  - exists ws. split; [|done]. cbn. by rewrite E at 1.
Qed.

Lemma rstrip_app_nonspace (a b : str) (c : N) :
  isspace c = false -> rstrip (a ++ c :: b) = a ++ c :: rstrip b.
Proof.
  intros Hc. induction a as [|d a IH]; cbn.
  - rewrite Hc. by destruct (rstrip b).
  - rewrite IH. by destruct a.
Qed.

Lemma lstrip_app_nonspace (ws b : str) (c : N) :
  forallb isspace ws = true -> isspace c = false ->
  lstrip (ws ++ c :: b) = c :: b.
Proof.
  intros Hws Hc. induction ws as [|d ws IH]; cbn.
  - by rewrite Hc.
  - cbn in Hws. apply andb_prop in Hws as [-> Hws]. by apply IH.
Qed.

Lemma space_prefix_of_word (ws a p b x : str) :
  no_space p -> p ≠ [] -> forallb isspace ws = true ->
  ws ++ x = a ++ p ++ b -> exists a', x = a' ++ p ++ b.
Proof.
  intros Hp Hne Hws. revert a. induction ws as [|c ws IH]; intros a E.
  - by exists a.
  - cbn in Hws. apply andb_prop in Hws as [Hc Hws].
    destruct a as [|d a].
    + destruct p as [|k p]; [done|]. cbn in E, Hp. simplify_eq.
      apply andb_prop in Hp as [Hk _]. by rewrite Hc in Hk.
    + cbn in E. simplify_eq. by apply (IH Hws a).
Qed.

Lemma contains_lstrip (p s : str) :
  no_space p -> p ≠ [] -> contains p (lstrip s) = contains p s.
Proof.
  intros Hp Hne. destruct (lstrip_spec s) as (ws & E & Hws).
  apply eq_true_iff_eq. rewrite !contains_spec. split.
  - intros (a & b & E'). exists (ws ++ a), b. rewrite E, E'. by rewrite <-app_assoc.
  - intros (a & b & E'). rewrite E' in E.
    destruct (space_prefix_of_word ws a p b (lstrip (a ++ p ++ b))) as [a' Ha'];
      [done..|by symmetry|].
    rewrite E'. eauto.
Qed.

Lemma contains_rstrip (p s : str) :
  no_space p -> p ≠ [] -> contains p (rstrip s) = contains p s.
Proof.
  intros Hp Hne. apply eq_true_iff_eq. rewrite !contains_spec. split.
  - intros (a & b & E'). destruct (rstrip_spec s) as (ws & E & Hws).
    exists a, (b ++ ws). rewrite E, E'. by rewrite <-!app_assoc.
  - intros (a & b & ->).
    destruct (exists_last Hne) as (p' & k & ->).
    assert (Hk : isspace k = false).
    { unfold no_space in Hp. rewrite forallb_app in Hp.
      apply andb_prop in Hp as [_ Hk]. cbn in Hk.
      by destruct (isspace k). }
    exists a, (rstrip b).
    rewrite <-!app_assoc. cbn [app].
    rewrite (app_assoc a p' (k :: b)), rstrip_app_nonspace by done.
    by rewrite <-app_assoc.
Qed.

(** A word without whitespace lies in a string exactly when it lies in the
    stripped string. *)
Lemma contains_strip (p s : str) :
  no_space p -> p ≠ [] -> contains p (strip s) = contains p s.
Proof.
  intros Hp Hne. unfold strip.
  by rewrite contains_rstrip, contains_lstrip.
Qed.

Lemma contains_nil_false (p : str) : p ≠ [] -> contains p [] = false.
Proof. by destruct p. Qed.

End StrFacts.

(** ** At most one actuator call per message *)

Lemma _reply_friend_request_calls event request_id approve self :
  (length (calls (trace_of (_reply_friend_request event request_id approve self)))
   ≤ 1)%nat.
Proof.
  destruct (pending_friend_requests self !! request_id) as [info|] eqn:Hin;
    [|rewrite (_reply_friend_request_absent _ _ _ _ Hin); cbn; lia].
  destruct (has_call_action (bot event)) eqn:Hbot.
  - rewrite (_reply_friend_request_present _ _ _ _ _ Hin Hbot). cbn zeta.
    destruct (call_action _ _); [cbn; lia|].
    destruct (send event _); cbn; lia.
  - unfold _reply_friend_request. rewrite bind_get, Hin, Hbot. cbn. lia.
Qed.

Lemma _reply_group_invite_calls event request_id approve self :
  (length (calls (trace_of (_reply_group_invite event request_id approve self)))
   ≤ 1)%nat.
Proof.
  destruct (pending_group_invites self !! request_id) as [info|] eqn:Hin;
    [|rewrite (_reply_group_invite_absent _ _ _ _ Hin); cbn; lia].
  destruct (has_call_action (bot event)) eqn:Hbot.
  - rewrite (_reply_group_invite_present _ _ _ _ _ Hin Hbot). cbn zeta.
    destruct (call_action _ _); [cbn; lia|].
    destruct (send event _); cbn; lia.
  - unfold _reply_group_invite. rewrite bind_get, Hin, Hbot. cbn. lia.
Qed.

Lemma delete_command_calls event msg self :
  (length (calls (trace_of (delete_command event msg self))) ≤ 1)%nat.
Proof.
  destruct (delete_command_run event msg self)
    as [_ [->|[[? ->]|[? ->]]]]; cbn; lia.
Qed.

Lemma group_invite_reply_calls event quoted_text msg self :
  (length (calls (trace_of (group_invite_reply event quoted_text msg self)))
   ≤ 1)%nat.
Proof.
  destruct (group_matched_dec self quoted_text) as [[request_id Hm]|Hno].
  - rewrite (group_invite_reply_matched _ _ _ _ _ Hm).
    repeat case_match;
      auto using _reply_group_invite_calls, delete_command_calls.
  - rewrite (group_invite_reply_unmatched _ _ _ _ Hno).
    apply delete_command_calls.
Qed.

Lemma friend_request_reply_calls event quoted_text msg self :
  (length (calls (trace_of (friend_request_reply event quoted_text msg self)))
   ≤ 1)%nat.
Proof.
  destruct (friend_matched_dec self quoted_text) as [[request_id Hm]|Hno].
  - rewrite (friend_request_reply_matched _ _ _ _ _ Hm).
    repeat case_match;
      auto using _reply_friend_request_calls, group_invite_reply_calls.
  - rewrite (friend_request_reply_unmatched _ _ _ _ Hno).
    apply group_invite_reply_calls.
Qed.

(** C9: handling one inbound chat message makes at most one call to the
    actuator (one of [set_friend_add_request], [set_group_add_request],
    [delete_friend], [set_friend_blacklist]). *)
Theorem on_all_message_at_most_one_call event self :
  (length (calls (trace_of (on_all_message event self))) ≤ 1)%nat.
Proof.
  destruct (decide (get_sender_id event ∈ admin_qq_list self)) as [Hyes|Hno].
  - rewrite (on_all_message_admin _ _ Hyes).
    destruct (strip (message_str event)); [cbn; lia|].
    apply friend_request_reply_calls.
  - rewrite (on_all_message_stranger _ _ Hno). cbn. lia.
Qed.

(** ** Messages without a decision keyword *)

Lemma no_keyword_falls_through event quoted_text msg self :
  contains KW_APPROVE msg = false -> contains KW_REJECT msg = false ->
  friend_request_reply event quoted_text msg self = delete_command event msg self.
Proof.
  intros Ha Hr.
  assert (Hg : group_invite_reply event quoted_text msg self
               = delete_command event msg self).
  { destruct (group_matched_dec self quoted_text) as [[request_id Hm]|Hno].
    - rewrite (group_invite_reply_matched _ _ _ _ _ Hm). by rewrite Ha, Hr.
    - by apply group_invite_reply_unmatched. }
  destruct (friend_matched_dec self quoted_text) as [[request_id Hm]|Hno].
  - rewrite (friend_request_reply_matched _ _ _ _ _ Hm). by rewrite Ha, Hr.
  - by rewrite friend_request_reply_unmatched.
Qed.

Lemma KW_APPROVE_no_space : no_space KW_APPROVE ∧ KW_APPROVE ≠ [].
Proof. done. Qed.

Lemma KW_REJECT_no_space : no_space KW_REJECT ∧ KW_REJECT ≠ [].
Proof. done. Qed.

Lemma contains_keyword_strip (body : str) :
  contains KW_APPROVE (strip body) = contains KW_APPROVE body
  ∧ contains KW_REJECT (strip body) = contains KW_REJECT body.
Proof.
  split; apply contains_strip;
    solve [apply KW_APPROVE_no_space | apply KW_REJECT_no_space].
Qed.

Lemma contains_strip_nonempty (p body : str) :
  p ≠ [] -> contains p (strip body) = true -> strip body ≠ [].
Proof.
  intros Hne H E. rewrite E in H. by rewrite contains_nil_false in H.
Qed.

(** ** Non-administrators and the delete-friend command *)

(** C8: a chat message from a sender outside [admin_qq_list] is dropped: no
    call, no reply, no log, both registries as before.  In particular
    [删除好友 222] from such a sender calls nothing, while from an
    administrator (on a bot with [call_action]) it calls [delete_friend] with
    [222] once and nothing else, whatever is quoted and pending. *)
Theorem non_admin_is_ignored event self :
  (get_sender_id event ∉ admin_qq_list self ->
   on_all_message event self = (tt, self, []))
  ∧ (get_sender_id event ∈ admin_qq_list self ->
     message_str event = body_delete_222 ->
     has_call_action (bot event) = true ->
     calls (trace_of (on_all_message event self)) = [delete_friend (u "222")]
     ∧ state_of (on_all_message event self) = self).
Proof.
  split; [apply on_all_message_stranger|].
  intros Hyes Hbody Hbot. rewrite (on_all_message_admin _ _ Hyes), Hbody.
  change (strip body_delete_222) with body_delete_222.
  unfold body_delete_222. cbv beta iota.
  rewrite no_keyword_falls_through by done.
  change (delete_command event _ self) with (_delete_friend event (u "222") self).
  destruct (_delete_friend_run event (u "222") self) as [-> ->].
  by rewrite Hbot.
Qed.

Lemma non_admin_is_ignored_witness :
  on_all_message (chat_event bot_returning STRANGER body_delete_222 []) fresh
    = (tt, fresh, [])
  ∧ calls (trace_of (on_all_message
                       (chat_event bot_returning ADMIN body_delete_222 []) fresh))
    = [delete_friend (u "222")].
Proof.
  split.
  - apply (proj1 (non_admin_is_ignored
                    (chat_event bot_returning STRANGER body_delete_222 []) fresh)).
    apply not_elem_of_cons. split; [discriminate|apply not_elem_of_nil].
  - apply (proj2 (non_admin_is_ignored
                    (chat_event bot_returning ADMIN body_delete_222 []) fresh));
      [left|reflexivity|reflexivity].
Defined.

(** ** Decision keywords *)

Lemma on_all_message_keyword event self (kw : str) :
  get_sender_id event ∈ admin_qq_list self ->
  kw ≠ [] -> contains kw (strip (message_str event)) = true ->
  on_all_message event self =
  friend_request_reply event (quoted_text_of event) (strip (message_str event)) self.
Proof.
  intros Hyes Hne Hkw. rewrite (on_all_message_admin _ _ Hyes).
  pose proof (contains_strip_nonempty _ _ Hne Hkw).
  by destruct (strip (message_str event)).
Qed.

Lemma on_all_message_no_keyword event self :
  get_sender_id event ∈ admin_qq_list self ->
  contains KW_APPROVE (message_str event) = false ->
  contains KW_REJECT (message_str event) = false ->
  on_all_message event self =
  match strip (message_str event) with
  | [] => (tt, self, [])
  | msg => delete_command event msg self
  end.
Proof.
  intros Hyes Ha Hr. rewrite (on_all_message_admin _ _ Hyes).
  destruct (contains_keyword_strip (message_str event)) as [Ea Er].
  rewrite Ha in Ea. rewrite Hr in Er.
  destruct (strip (message_str event)) as [|c msg]; [done|].
  by apply no_keyword_falls_through.
Qed.

Lemma delete_command_no_decision event msg self :
  no_decision_call (trace_of (delete_command event msg self)).
Proof.
  intros a. destruct (delete_command_run event msg self)
    as [_ [->|[[? ->]|[? ->]]]]; intros Ha.
  - by apply elem_of_nil in Ha.
  - by apply list_elem_of_singleton in Ha as ->.
  - by apply list_elem_of_singleton in Ha as ->.
Qed.

(** C5: on a matched reply the body is searched for [同意] first and for
    [拒绝] only when [同意] is absent.  A body with [同意] (with or without
    [拒绝]) runs the approve reply, a body with [拒绝] alone the reject reply,
    and a body with neither makes no approve or reject call and leaves the
    registries as they were. *)
Theorem decision_keyword_order event self request_id :
  get_sender_id event ∈ admin_qq_list self ->
  let body := message_str event in
  let quoted_text := quoted_text_of event in
  let r := on_all_message event self in
  (contains KW_APPROVE body = true ->
     (friend_matched self quoted_text request_id ->
        r = _reply_friend_request event request_id true self
        ∧ (has_call_action (bot event) = true ->
           exists info, pending_friend_requests self !! request_id = Some info
             ∧ calls (trace_of r) = [set_friend_add_request (Friend.flag info) true]))
     ∧ ((forall i, ¬ friend_matched self quoted_text i) ->
        group_matched self quoted_text request_id ->
        r = _reply_group_invite event request_id true self
        ∧ (has_call_action (bot event) = true ->
           exists info, pending_group_invites self !! request_id = Some info
             ∧ calls (trace_of r)
               = [set_group_add_request (Group.flag info) V_add true])))
  ∧ (contains KW_APPROVE body = false -> contains KW_REJECT body = true ->
     (friend_matched self quoted_text request_id ->
        r = _reply_friend_request event request_id false self)
     ∧ ((forall i, ¬ friend_matched self quoted_text i) ->
        group_matched self quoted_text request_id ->
        r = _reply_group_invite event request_id false self))
  ∧ (contains KW_APPROVE body = false -> contains KW_REJECT body = false ->
     no_decision_call (trace_of r) ∧ state_of r = self).
Proof.
  intros Hyes body quoted_text r. subst body quoted_text r.
  destruct (contains_keyword_strip (message_str event)) as [Ea Er].
  split; [|split].
  - intros Ha. rewrite <-Ea in Ha.
    rewrite (on_all_message_keyword _ _ KW_APPROVE Hyes) by done.
    split.
    + intros Hm. rewrite (friend_request_reply_matched _ _ _ _ _ Hm), Ha.
      split; [done|]. intros Hbot. destruct Hm as (_ & _ & _ & [info Hin]).
      exists info. split; [done|].
      by apply _reply_friend_request_present_calls.
    + intros Hno Hm. rewrite (friend_request_reply_unmatched _ _ _ _ Hno).
      rewrite (group_invite_reply_matched _ _ _ _ _ Hm), Ha.
      split; [done|]. intros Hbot. destruct Hm as (_ & _ & _ & [info Hin]).
      exists info. split; [done|].
      by apply _reply_group_invite_present_calls.
  - intros Ha Hr. rewrite <-Ea in Ha. rewrite <-Er in Hr.
    rewrite (on_all_message_keyword _ _ KW_REJECT Hyes) by done.
    split.
    + intros Hm. by rewrite (friend_request_reply_matched _ _ _ _ _ Hm), Ha, Hr.
    + intros Hno Hm. rewrite (friend_request_reply_unmatched _ _ _ _ Hno).
      by rewrite (group_invite_reply_matched _ _ _ _ _ Hm), Ha, Hr.
  - intros Ha Hr. rewrite (on_all_message_no_keyword _ _ Hyes Ha Hr).
    destruct (strip (message_str event)) as [|c msg].
    + split; [|done]. intros a Hin. by apply elem_of_nil in Hin.
    + split; [apply delete_command_no_decision|].
      apply delete_command_run.
Qed.

(** ** The scenario of request 111 with token flagA *)

Lemma quoted_111_matched event0 self0 :
  friend_matched
    (state_of (_handle_friend_request event0
                 (friend_event (u "111") [] (u "flagA")) self0))
    quoted_111 (u "111_flagA").
Proof.
  rewrite record_friend_state. unfold friend_matched.
  split; [done|]. split; [done|]. split; [done|].
  cbn. change (friend_request_id (u "111") (u "flagA")) with (u "111_flagA").
  rewrite lookup_insert_eq. eauto.
Qed.

(** C4: after the friend event of requester [111] with token [flagA] is
    recorded, an administrator's [同意] quoting the notification text calls
    [set_friend_add_request] with flag [flagA] and [approve=True], and the
    returning call removes [111_flagA] from the friend registry; with [拒绝]
    the call has [approve=False] and the record is removed as well. *)
Theorem reply_to_request_111 event0 event self0 (approve : bool) :
  get_sender_id event ∈ admin_qq_list self0 ->
  quoted_text_of event = quoted_111 ->
  message_str event = (if approve then KW_APPROVE else KW_REJECT) ->
  has_call_action (bot event) = true ->
  call_action (bot event) (set_friend_add_request (u "flagA") approve) = None ->
  let self1 := state_of (_handle_friend_request event0
                           (friend_event (u "111") [] (u "flagA")) self0) in
  let r := on_all_message event self1 in
  is_Some (pending_friend_requests self1 !! u "111_flagA")
  ∧ calls (trace_of r) = [set_friend_add_request (u "flagA") approve]
  ∧ pending_friend_requests (state_of r) !! u "111_flagA" = None
  ∧ pending_friend_requests (state_of r)
    = delete (u "111_flagA") (pending_friend_requests self1).
Proof.
  intros Hyes Hq Hbody Hbot Hcall self1 r.
  pose proof (quoted_111_matched event0 self0) as Hm. fold self1 in Hm.
  assert (Hadmin : get_sender_id event ∈ admin_qq_list self1).
  { unfold self1. by rewrite record_friend_state. }
  assert (Hin : pending_friend_requests self1 !! u "111_flagA"
                = Some (Friend.Info (u "111_flagA") (u "111") [] (u "flagA"))).
  { unfold self1. rewrite record_friend_state. cbn. apply lookup_insert_eq. }
  assert (Hr : r = _reply_friend_request event (u "111_flagA") approve self1).
  { unfold r. rewrite (on_all_message_admin _ _ Hadmin), Hbody.
    rewrite Hq. destruct approve.
    - change (strip KW_APPROVE) with KW_APPROVE. unfold KW_APPROVE at 1.
      by rewrite (friend_request_reply_matched _ _ _ _ _ Hm).
    - change (strip KW_REJECT) with KW_REJECT. unfold KW_REJECT at 1.
      by rewrite (friend_request_reply_matched _ _ _ _ _ Hm). }
  split; [by rewrite Hin|].
  rewrite Hr, (_reply_friend_request_present _ _ _ _ _ Hin Hbot).
  cbn zeta. cbn [Friend.flag Friend.user_id]. rewrite Hcall.
  cbn [state_of trace_of fst snd].
  split; [by destruct (send event _)|].
  cbn. split; [apply lookup_delete_eq|done].
Qed.

Lemma reply_to_request_111_witness :
  calls (trace_of (on_all_message
                     (chat_event bot_returning ADMIN KW_APPROVE [Plain quoted_111])
                     with_friend_111))
    = [set_friend_add_request (u "flagA") true]
  ∧ calls (trace_of (on_all_message
                       (chat_event bot_returning ADMIN KW_REJECT [Plain quoted_111])
                       with_friend_111))
    = [set_friend_add_request (u "flagA") false].
Proof.
  split.
  - apply (reply_to_request_111
             (request_event (friend_event (u "111") [] (u "flagA")))
             (chat_event bot_returning ADMIN KW_APPROVE [Plain quoted_111])
             fresh true); [left|reflexivity..].
  - apply (reply_to_request_111
             (request_event (friend_event (u "111") [] (u "flagA")))
             (chat_event bot_returning ADMIN KW_REJECT [Plain quoted_111])
             fresh false); [left|reflexivity..].
Defined.

Lemma decision_keyword_order_witness :
  let event := chat_event bot_returning ADMIN (u "同意还是拒绝") [Plain quoted_111] in
  contains KW_APPROVE (message_str event) = true
  ∧ contains KW_REJECT (message_str event) = true
  ∧ on_all_message event with_friend_111
    = _reply_friend_request event (u "111_flagA") true with_friend_111.
Proof.
  intros event. split; [reflexivity|]. split; [reflexivity|].
  refine (proj1 (proj1 (proj1 (decision_keyword_order event with_friend_111
                                 (u "111_flagA") _) _) _)).
  - left.
  - reflexivity.
  - apply quoted_111_matched.
Defined.

(** ** Correlation ids that are not pending *)

(** C2, as stated, fails: an administrator's [同意] that quotes a notification
    with the well-formed id [111_flagA], with nothing pending, gets no reply
    at all (no NotFound message); and the same quotation under the body
    [删除好友 222] does reach the actuator. *)
Lemma not_found_counterexample :
  let event := chat_event bot_returning ADMIN KW_APPROVE [Plain quoted_111] in
  let event' := chat_event bot_returning ADMIN body_delete_222 [Plain quoted_111] in
  contains FRIEND_MARKER (quoted_text_of event) = true
  ∧ extract_request_id FRIEND_ID_LABEL (splitlines (quoted_text_of event))
    = Some (u "111_flagA")
  ∧ pending_friend_requests fresh !! u "111_flagA" = None
  ∧ trace_of (on_all_message event fresh) = []
  ∧ calls (trace_of (on_all_message event' fresh)) = [delete_friend (u "222")].
Proof. vm_compute. done. Qed.

(** C2, amended: when the correlation id extracted from the quoted text is
    not in the registry of its marker, the handler skips that reply without
    any effect and goes on to its next check (the group-invite reply, then
    the direct commands, which leave both registries as they were).  The
    NotFound message is what [_reply_friend_request] and
    [_reply_group_invite] do when called with an id that is not pending:
    they send it, call nothing and change nothing. *)
Theorem absent_correlation_id event self quoted_text msg request_id approve :
  (pending_friend_requests self !! request_id = None ->
     _reply_friend_request event request_id approve self
       = (tt, self, [Send MSG_friend_not_found])
     ∧ (extract_request_id FRIEND_ID_LABEL (splitlines quoted_text) = Some request_id ->
        friend_request_reply event quoted_text msg self
        = group_invite_reply event quoted_text msg self))
  ∧ (pending_group_invites self !! request_id = None ->
     _reply_group_invite event request_id approve self
       = (tt, self, [Send MSG_group_not_found])
     ∧ (extract_request_id GROUP_ID_LABEL (splitlines quoted_text) = Some request_id ->
        group_invite_reply event quoted_text msg self = delete_command event msg self
        ∧ state_of (group_invite_reply event quoted_text msg self) = self
        ∧ no_decision_call (trace_of (group_invite_reply event quoted_text msg self)))).
Proof.
  split; intros Hout.
  - split; [by apply _reply_friend_request_absent|]. intros Hid.
    apply friend_request_reply_unmatched.
    intros i (_ & Hid' & _ & [info Hin]). congruence.
  - split; [by apply _reply_group_invite_absent|]. intros Hid.
    assert (E : group_invite_reply event quoted_text msg self
                = delete_command event msg self).
    { apply group_invite_reply_unmatched.
      intros i (_ & Hid' & _ & [info Hin]). congruence. }
    rewrite E. split; [done|]. split.
    + apply delete_command_run.
    + apply delete_command_no_decision.
Qed.

Lemma absent_correlation_id_witness :
  let event := chat_event bot_returning ADMIN KW_APPROVE [Plain quoted_111] in
  let event' := chat_event bot_returning ADMIN KW_APPROVE [Plain quoted_900] in
  (_reply_friend_request event (u "111_flagA") true fresh
     = (tt, fresh, [Send MSG_friend_not_found])
   ∧ friend_request_reply event quoted_111 KW_APPROVE fresh
     = group_invite_reply event quoted_111 KW_APPROVE fresh)
  ∧ (_reply_group_invite event' (u "900_111_flagB") true fresh
       = (tt, fresh, [Send MSG_group_not_found])
     ∧ group_invite_reply event' quoted_900 KW_APPROVE fresh
       = delete_command event' KW_APPROVE fresh).
Proof.
  intros event event'. split.
  - pose proof (proj1 (absent_correlation_id event fresh quoted_111 KW_APPROVE
                         (u "111_flagA") true) eq_refl) as [H1 H2].
    split; [exact H1|exact (H2 eq_refl)].
  - pose proof (proj2 (absent_correlation_id event' fresh quoted_900 KW_APPROVE
                         (u "900_111_flagB") true) eq_refl) as [H1 H2].
    split; [exact H1|exact (proj1 (H2 eq_refl))].
Defined.

(** ** Extraction of the correlation id *)

Lemma no_linebreak_app (a b : str) :
  no_linebreak a -> no_linebreak b -> no_linebreak (a ++ b).
Proof. unfold no_linebreak. rewrite forallb_app. by intros -> ->. Qed.

Lemma splitlines_line (a rest : str) :
  no_linebreak a -> splitlines (a ++ LF :: rest) = a :: splitlines rest.
Proof.
  unfold no_linebreak. induction a as [|c a IH]; intros Ha.
  - cbn. by destruct rest.
  - cbn in Ha. apply andb_prop in Ha as [Hc Ha].
    cbn. destruct (islinebreak c); [done|]. by rewrite (IH Ha).
Qed.

Lemma split1_friend_label (b : str) :
  split1 COLON (FRIEND_ID_LABEL ++ b) = [take 4 FRIEND_ID_LABEL; b].
Proof. reflexivity. Qed.

Lemma split1_group_label (b : str) :
  split1 COLON (GROUP_ID_LABEL ++ b) = [take 4 GROUP_ID_LABEL; b].
Proof. reflexivity. Qed.






(** * Further properties of the plugin *)

(** ** Notifying the administrators *)

Lemma private_messages_app t1 t2 :
  private_messages (t1 ++ t2) = private_messages t1 ++ private_messages t2.
Proof. unfold private_messages. apply omap_app. Qed.

Lemma error_logs_app t1 t2 : error_logs (t1 ++ t2) = error_logs t1 ++ error_logs t2.
Proof. unfold error_logs. apply omap_app. Qed.

Lemma notify_each_private_messages event text admins self :
  private_messages (trace_of (notify_each event text admins self))
  = omap (notified event text) admins.
Proof.
  induction admins as [|a rest IH]; [done|].
  rewrite notify_each_cons. cbn [trace_of snd].
  rewrite private_messages_app, IH.
  change (omap (notified event text) (a :: rest))
    with (match notified event text a with
          | Some y => y :: omap (notified event text) rest
          | None => omap (notified event text) rest
          end).
  unfold notified at 2.
  by destruct (get_platform_adapter event a), (send_message event a text).
Qed.

Lemma notify_each_error_logs event text admins self :
  error_logs (trace_of (notify_each event text admins self))
  = omap (fun a => (fun e => MSG_notify_failed_1 ++ a ++ MSG_notify_failed_2 ++ e)
                     <$> notify_failure event text a) admins.
Proof.
  induction admins as [|a rest IH]; [done|].
  rewrite notify_each_cons. cbn [trace_of snd].
  rewrite error_logs_app, IH.
  set (f := fun a => (fun e => MSG_notify_failed_1 ++ a ++ MSG_notify_failed_2 ++ e)
                       <$> notify_failure event text a).
  change (omap f (a :: rest))
    with (match f a with
          | Some y => y :: omap f rest
          | None => omap f rest
          end).
  unfold f at 2, notify_failure.
  by destruct (get_platform_adapter event a), (send_message event a text).
Qed.

Lemma notify_each_sends event text admins self :
  sends (trace_of (notify_each event text admins self)) = [].
Proof.
  induction admins as [|a rest IH]; [done|].
  rewrite notify_each_cons. cbn [trace_of snd]. rewrite sends_app, IH.
  by destruct (get_platform_adapter event a), (send_message event a text).
Qed.

Lemma omap_notified_all event text (admins : list str) :
  (forall a, a ∈ admins -> get_platform_adapter event a = None) ->
  omap (notified event text) admins = map (fun a => (a, text)) admins.
Proof.
  induction admins as [|a rest IH]; intros Hall; [done|].
  cbn. unfold notified at 1. rewrite (Hall a) by left.
  f_equal. apply IH. intros b Hb. apply Hall. by right.
Qed.

(** [_notify_admins] takes the administrators of [admin_qq_list] in order,
    each once, and goes on past every failure.  An administrator is sent the
    text when the adapter could be fetched for that turn, so every one of
    them is when it always can; a turn whose adapter or whose send raised is
    logged with the administrator and the failure text.  The method replies
    nothing, calls no action and leaves the plugin as it was; with no
    administrator configured it only logs a warning. *)
Theorem _notify_admins_tries_every_admin text event self :
  let r := _notify_admins text event self in
  private_messages (trace_of r) = omap (notified event text) (admin_qq_list self)
  ∧ ((forall a, a ∈ admin_qq_list self -> get_platform_adapter event a = None) ->
     private_messages (trace_of r) = map (fun a => (a, text)) (admin_qq_list self))
  ∧ error_logs (trace_of r)
    = omap (fun a => (fun e => MSG_notify_failed_1 ++ a ++ MSG_notify_failed_2 ++ e)
                       <$> notify_failure event text a) (admin_qq_list self)
  ∧ calls (trace_of r) = []
  ∧ sends (trace_of r) = []
  ∧ state_of r = self
  ∧ (admin_qq_list self = [] -> trace_of r = [LogWarning MSG_no_admins]).
Proof.
  intros r. subst r. unfold _notify_admins. rewrite bind_get.
  destruct (admin_qq_list self) as [|a rest] eqn:E.
  - by cbn.
  - rewrite notify_each_private_messages, notify_each_error_logs,
      notify_each_calls, notify_each_sends, notify_each_state.
    split; [done|]. split; [apply omap_notified_all|]. by repeat split.
Qed.

Lemma _notify_admins_tries_every_admin_witness :
  let event :=
    {| get_sender_id := []; message_str := []; message := None;
       raw_message := None; bot := bot_returning;
       send := fun _ => None;
       get_platform_adapter :=
         fun a => if bool_decide (a = ADMIN) then Some (u "no adapter") else None;
       send_message := fun _ _ => None |} in
  private_messages
    (trace_of (_notify_admins (u "hello") (request_event ∅) (init [ADMIN; STRANGER] [])))
  = [(ADMIN, u "hello"); (STRANGER, u "hello")]
  ∧ private_messages
      (trace_of (_notify_admins (u "hello") event (init [ADMIN; STRANGER] [])))
    = [(STRANGER, u "hello")]
  ∧ trace_of (_notify_admins (u "hello") event (init [] []))
    = [LogWarning MSG_no_admins].
Proof.
  intros event. split; [|split].
  - apply (_notify_admins_tries_every_admin (u "hello") (request_event ∅)
             (init [ADMIN; STRANGER] [])).
    reflexivity.
  - apply (_notify_admins_tries_every_admin (u "hello") event
             (init [ADMIN; STRANGER] [])).
  - apply (_notify_admins_tries_every_admin (u "hello") event (init [] [])).
    reflexivity.
Defined.

(** ** The two registries are kept apart *)

Lemma record_group_state event group_id user_id flag self :
  state_of (_handle_group_invite event (group_event group_id user_id flag) self) =
  set_pending_group_invites
    (insert (group_invite_id group_id user_id flag)
       (Group.Info (group_invite_id group_id user_id flag) group_id user_id flag))
    self.
Proof.
  rewrite _handle_group_invite_state.
  destruct (group_event_fields group_id user_id flag) as (-> & -> & ->). done.
Qed.

(** Recording a group invite and looking its id up at once gives back the
    stored record; the recording leaves the friend-request registry and the
    configuration as they were, and recording a friend request leaves the
    group-invite registry as it was, whatever the ids. *)
Theorem record_then_lookup_group event self (groupId inviterId approvalToken : str)
    (requesterId comment : str) :
  let correlationId := group_invite_id groupId inviterId approvalToken in
  let self1 := state_of (_handle_group_invite event
                           (group_event groupId inviterId approvalToken) self) in
  let self2 := state_of (_handle_friend_request event
                           (friend_event requesterId comment approvalToken) self) in
  pending_group_invites self1 !! correlationId
    = Some {| Group.request_id := correlationId;
              Group.group_id := groupId;
              Group.user_id := inviterId;
              Group.flag := approvalToken |}
  ∧ pending_friend_requests self1 = pending_friend_requests self
  ∧ admin_qq_list self1 = admin_qq_list self
  ∧ pending_group_invites self2 = pending_group_invites self
  ∧ admin_qq_list self2 = admin_qq_list self.
Proof.
  intros rid self1 self2. subst self1 self2.
  rewrite record_group_state, record_friend_state. cbn.
  split; [apply lookup_insert_eq|done].
Qed.

(** ** What one message can do *)

Lemma _reply_friend_request_unsupported event self request_id approve info :
  pending_friend_requests self !! request_id = Some info ->
  has_call_action (bot event) = false ->
  _reply_friend_request event request_id approve self
  = (tt, self, [Send MSG_friend_unsupported]).
Proof.
  intros Hin Hbot. unfold _reply_friend_request. rewrite bind_get.
  by rewrite Hin, Hbot.
Qed.

Lemma _reply_group_invite_unsupported event self request_id approve info :
  pending_group_invites self !! request_id = Some info ->
  has_call_action (bot event) = false ->
  _reply_group_invite event request_id approve self
  = (tt, self, [Send MSG_group_unsupported]).
Proof.
  intros Hin Hbot. unfold _reply_group_invite. rewrite bind_get.
  by rewrite Hin, Hbot.
Qed.

(** The handler ends in one of four ways. *)
Lemma on_all_message_outcome event self :
  let r := on_all_message event self in
  let msg := strip (message_str event) in
  let quoted_text := quoted_text_of event in
  r = (tt, self, [])
  ∨ r = delete_command event msg self
  ∨ (exists request_id approve info,
       get_sender_id event ∈ admin_qq_list self
       ∧ friend_matched self quoted_text request_id
       ∧ pending_friend_requests self !! request_id = Some info
       ∧ r = _reply_friend_request event request_id approve self)
  ∨ (exists request_id approve info,
       get_sender_id event ∈ admin_qq_list self
       ∧ group_matched self quoted_text request_id
       ∧ pending_group_invites self !! request_id = Some info
       ∧ r = _reply_group_invite event request_id approve self).
Proof.
  intros r msg quoted_text. subst r msg quoted_text.
  destruct (decide (get_sender_id event ∈ admin_qq_list self)) as [Hyes|Hno];
    [|left; by apply on_all_message_stranger].
  rewrite (on_all_message_admin _ _ Hyes).
  destruct (strip (message_str event)) as [|c msg]; [by left|].
  assert (Hg : let r := group_invite_reply event (quoted_text_of event) (c :: msg) self in
     r = delete_command event (c :: msg) self
     ∨ (exists request_id approve info,
          get_sender_id event ∈ admin_qq_list self
          ∧ group_matched self (quoted_text_of event) request_id
          ∧ pending_group_invites self !! request_id = Some info
          ∧ r = _reply_group_invite event request_id approve self)).
  { destruct (group_matched_dec self (quoted_text_of event)) as [[i Hm]|Hno].
    - cbn zeta. rewrite (group_invite_reply_matched _ _ _ _ _ Hm).
      pose proof Hm as (_ & _ & _ & [info Hin]).
      destruct (contains KW_APPROVE _); [right; by exists i, true, info|].
      destruct (contains KW_REJECT _); [right; by exists i, false, info|].
      by left.
    - left. by apply group_invite_reply_unmatched. }
  cbn zeta in Hg.
  destruct (friend_matched_dec self (quoted_text_of event)) as [[i Hm]|Hno].
  - rewrite (friend_request_reply_matched _ _ _ _ _ Hm).
    pose proof Hm as (_ & _ & _ & [info Hin]).
    destruct (contains KW_APPROVE _);
      [right; right; left; by exists i, true, info|].
    destruct (contains KW_REJECT _);
      [right; right; left; by exists i, false, info|].
    destruct Hg as [Hg|Hg]; auto.
  - rewrite (friend_request_reply_unmatched _ _ _ _ Hno).
    destruct Hg as [Hg|Hg]; auto.
Qed.

Lemma _reply_friend_request_cases event self request_id approve info :
  pending_friend_requests self !! request_id = Some info ->
  let a := set_friend_add_request (Friend.flag info) approve in
  let r := _reply_friend_request event request_id approve self in
  (state_of r = self ∧ (calls (trace_of r) = [] ∨ calls (trace_of r) = [a]))
  ∨ (has_call_action (bot event) = true
     ∧ call_action (bot event) a = None
     ∧ calls (trace_of r) = [a]
     ∧ state_of r = set_pending_friend_requests (delete request_id) self).
Proof.
  intros Hin a r. subst a r.
  destruct (has_call_action (bot event)) eqn:Hbot.
  - rewrite !(_reply_friend_request_present_calls _ _ _ approve _ Hin Hbot).
    rewrite (_reply_friend_request_present _ _ _ _ _ Hin Hbot). cbn zeta.
    destruct (call_action _ _) as [e|] eqn:Hres; [left|right]; cbn; auto.
  - rewrite (_reply_friend_request_unsupported _ _ _ _ _ Hin Hbot). left.
    cbn. auto.
Qed.

Lemma _reply_group_invite_cases event self request_id approve info :
  pending_group_invites self !! request_id = Some info ->
  let a := set_group_add_request (Group.flag info) V_add approve in
  let r := _reply_group_invite event request_id approve self in
  (state_of r = self ∧ (calls (trace_of r) = [] ∨ calls (trace_of r) = [a]))
  ∨ (has_call_action (bot event) = true
     ∧ call_action (bot event) a = None
     ∧ calls (trace_of r) = [a]
     ∧ state_of r = set_pending_group_invites (delete request_id) self).
Proof.
  intros Hin a r. subst a r.
  destruct (has_call_action (bot event)) eqn:Hbot.
  - rewrite !(_reply_group_invite_present_calls _ _ _ approve _ Hin Hbot).
    rewrite (_reply_group_invite_present _ _ _ _ _ Hin Hbot). cbn zeta.
    destruct (call_action _ _) as [e|] eqn:Hres; [left|right]; cbn; auto.
  - rewrite (_reply_group_invite_unsupported _ _ _ _ _ Hin Hbot). left.
    cbn. auto.
Qed.

(** [on_all_message] changes the plugin in one way only: it removes the one
    pending record that the quoted text names.  So both registries can only
    shrink, by one record in all, nothing is ever added or rewritten, and the
    configuration stays. *)
Theorem on_all_message_only_removes event self :
  let r := on_all_message event self in
  let quoted_text := quoted_text_of event in
  (state_of r = self
   ∨ (exists request_id, friend_matched self quoted_text request_id
        ∧ state_of r = set_pending_friend_requests (delete request_id) self)
   ∨ (exists request_id, group_matched self quoted_text request_id
        ∧ state_of r = set_pending_group_invites (delete request_id) self))
  ∧ pending_friend_requests (state_of r) ⊆ pending_friend_requests self
  ∧ pending_group_invites (state_of r) ⊆ pending_group_invites self
  ∧ admin_qq_list (state_of r) = admin_qq_list self
  ∧ bot_qq (state_of r) = bot_qq self.
Proof.
  intros r quoted_text.
  assert (H : state_of r = self
   ∨ (exists request_id, friend_matched self quoted_text request_id
        ∧ state_of r = set_pending_friend_requests (delete request_id) self)
   ∨ (exists request_id, group_matched self quoted_text request_id
        ∧ state_of r = set_pending_group_invites (delete request_id) self)).
  { destruct (on_all_message_outcome event self)
      as [E|[E|[(i & ap & info & _ & Hm & Hin & E)|(i & ap & info & _ & Hm & Hin & E)]]];
      fold r in E; rewrite E.
    - by left.
    - left. apply delete_command_run.
    - destruct (_reply_friend_request_cases event self i ap info Hin)
        as [[Hs _]|(_ & _ & _ & Hs)]; [by left|].
      right; left. by exists i.
    - destruct (_reply_group_invite_cases event self i ap info Hin)
        as [[Hs _]|(_ & _ & _ & Hs)]; [by left|].
      right; right. by exists i. }
  split; [done|].
  destruct H as [->|[(i & _ & ->)|(i & _ & ->)]]; cbn;
    repeat split; try done; apply delete_subseteq.
Qed.

(** A pending record disappears only when the actuator call that carries its
    own token has returned: then the sender is an administrator, the quoted
    text names the record, and that call is the only one made. *)
Theorem removal_needs_returned_call event self (k : str) :
  let r := on_all_message event self in
  (forall info,
     pending_friend_requests self !! k = Some info ->
     pending_friend_requests (state_of r) !! k = None ->
     get_sender_id event ∈ admin_qq_list self
     ∧ friend_matched self (quoted_text_of event) k
     ∧ exists approve,
         calls (trace_of r) = [set_friend_add_request (Friend.flag info) approve]
         ∧ call_action (bot event) (set_friend_add_request (Friend.flag info) approve)
           = None)
  ∧ (forall info,
     pending_group_invites self !! k = Some info ->
     pending_group_invites (state_of r) !! k = None ->
     get_sender_id event ∈ admin_qq_list self
     ∧ group_matched self (quoted_text_of event) k
     ∧ exists approve,
         calls (trace_of r) = [set_group_add_request (Group.flag info) V_add approve]
         ∧ call_action (bot event)
             (set_group_add_request (Group.flag info) V_add approve) = None).
Proof.
  intros r. split; intros info Hk Hgone.
  - destruct (on_all_message_outcome event self)
      as [E|[E|[(i & ap & info' & Hadm & Hm & Hin & E)|(i & ap & info' & _ & Hm & Hin & E)]]];
      fold r in E; rewrite E in Hgone |- *.
    + cbn in Hgone. congruence.
    + destruct (delete_command_run event (strip (message_str event)) self) as [Hs _].
      rewrite Hs in Hgone. congruence.
    + destruct (_reply_friend_request_cases event self i ap info' Hin)
        as [[Hs _]|(_ & Hret & Hc & Hs)]; rewrite Hs in Hgone; [congruence|].
      cbn in Hgone. destruct (decide (i = k)) as [->|Hne].
      * assert (info' = info) as -> by congruence. eauto.
      * rewrite lookup_delete_ne in Hgone by done. congruence.
    + destruct (_reply_group_invite_cases event self i ap info' Hin)
        as [[Hs _]|(_ & _ & _ & Hs)]; rewrite Hs in Hgone; cbn in Hgone; congruence.
  - destruct (on_all_message_outcome event self)
      as [E|[E|[(i & ap & info' & _ & Hm & Hin & E)|(i & ap & info' & Hadm & Hm & Hin & E)]]];
      fold r in E; rewrite E in Hgone |- *.
    + cbn in Hgone. congruence.
    + destruct (delete_command_run event (strip (message_str event)) self) as [Hs _].
      rewrite Hs in Hgone. congruence.
    + destruct (_reply_friend_request_cases event self i ap info' Hin)
        as [[Hs _]|(_ & _ & _ & Hs)]; rewrite Hs in Hgone; cbn in Hgone; congruence.
    + destruct (_reply_group_invite_cases event self i ap info' Hin)
        as [[Hs _]|(_ & Hret & Hc & Hs)]; rewrite Hs in Hgone; [congruence|].
      cbn in Hgone. destruct (decide (i = k)) as [->|Hne].
      * assert (info' = info) as -> by congruence. eauto.
      * rewrite lookup_delete_ne in Hgone by done. congruence.
Qed.

Lemma removal_needs_returned_call_witness :
  let event := chat_event bot_returning ADMIN KW_APPROVE [Plain quoted_111] in
  get_sender_id event ∈ admin_qq_list with_friend_111
  ∧ friend_matched with_friend_111 (quoted_text_of event) (u "111_flagA")
  ∧ exists approve,
      calls (trace_of (on_all_message event with_friend_111))
        = [set_friend_add_request (u "flagA") approve]
      ∧ call_action (bot event) (set_friend_add_request (u "flagA") approve) = None.
Proof.
  intros event.
  exact (proj1 (removal_needs_returned_call event with_friend_111 (u "111_flagA"))
           (Friend.Info (u "111_flagA") (u "111") [] (u "flagA")) eq_refl eq_refl).
Defined.

(** ** A platform without [call_action] *)

Lemma delete_command_unsupported event msg self :
  has_call_action (bot event) = false ->
  calls (trace_of (delete_command event msg self)) = [].
Proof.
  intros Hbot. unfold delete_command, ban_command.
  destruct (startswith CMD_DELETE msg), (startswith CMD_BAN msg),
    (split_ws1 msg) as [|w [|arg [|]]]; try done;
    unfold _delete_friend, _ban_user; by rewrite Hbot.
Qed.

(** When [event.bot] has no [call_action], no actuator call is ever made and
    nothing changes: a decision on a pending record is answered with the
    unsupported-platform message and the record stays pending; the two
    commands are answered likewise; and whatever the message, the handler
    calls nothing and leaves the plugin as it was. *)
Theorem no_call_action_no_effect event self :
  has_call_action (bot event) = false ->
  (forall request_id approve,
     is_Some (pending_friend_requests self !! request_id) ->
     _reply_friend_request event request_id approve self
     = (tt, self, [Send MSG_friend_unsupported]))
  ∧ (forall request_id approve,
     is_Some (pending_group_invites self !! request_id) ->
     _reply_group_invite event request_id approve self
     = (tt, self, [Send MSG_group_unsupported]))
  ∧ (forall user_id,
     _delete_friend event user_id self = (tt, self, [Send MSG_delete_unsupported])
     ∧ _ban_user event user_id self = (tt, self, [Send MSG_ban_unsupported]))
  ∧ calls (trace_of (on_all_message event self)) = []
  ∧ state_of (on_all_message event self) = self.
Proof.
  intros Hbot. split; [|split; [|split]].
  - intros i ap [info Hin]. by eapply _reply_friend_request_unsupported.
  - intros i ap [info Hin]. by eapply _reply_group_invite_unsupported.
  - intros user_id. unfold _delete_friend, _ban_user. by rewrite Hbot.
  - destruct (on_all_message_outcome event self)
      as [E|[E|[(i & ap & info & _ & _ & Hin & E)|(i & ap & info & _ & _ & Hin & E)]]];
      rewrite E.
    + done.
    + split; [by apply delete_command_unsupported|apply delete_command_run].
    + by rewrite (_reply_friend_request_unsupported _ _ _ _ _ Hin Hbot).
    + by rewrite (_reply_group_invite_unsupported _ _ _ _ _ Hin Hbot).
Qed.

Lemma no_call_action_no_effect_witness :
  let event :=
    {| get_sender_id := ADMIN; message_str := KW_APPROVE;
       message := Some [Plain quoted_111]; raw_message := None;
       bot := {| has_call_action := false; call_action := fun _ => None |};
       send := fun _ => None; get_platform_adapter := fun _ => None;
       send_message := fun _ _ => None |} in
  on_all_message event with_friend_111
    = (tt, with_friend_111, [Send MSG_friend_unsupported])
  ∧ calls (trace_of (on_all_message event with_friend_111)) = [].
Proof.
  intros event.
  pose proof (no_call_action_no_effect event with_friend_111 eq_refl)
    as (H1 & _ & _ & H4 & _).
  split; [|exact H4].
  exact (H1 (u "111_flagA") true
           (ex_intro _ (Friend.Info (u "111_flagA") (u "111") [] (u "flagA")) eq_refl)).
Defined.

(** ** The marker decides the registry *)

(** A message whose quoted text lacks [【好友申请】] leaves the friend-request
    registry as it was and makes no [set_friend_add_request] call, whatever
    ids the text carries and whatever is pending; likewise [【群邀请】] for the
    group-invite registry and [set_group_add_request]. *)
Theorem marker_decides_registry event self :
  let r := on_all_message event self in
  (contains FRIEND_MARKER (quoted_text_of event) = false ->
     pending_friend_requests (state_of r) = pending_friend_requests self
     ∧ forall flag approve, set_friend_add_request flag approve ∉ calls (trace_of r))
  ∧ (contains GROUP_MARKER (quoted_text_of event) = false ->
     pending_group_invites (state_of r) = pending_group_invites self
     ∧ forall flag sub_type approve,
         set_group_add_request flag sub_type approve ∉ calls (trace_of r)).
Proof.
  intros r.
  assert (Hcmd : forall msg (a : Action),
    (forall user_id, a ≠ delete_friend user_id) ->
    (forall user_id enable, a ≠ set_friend_blacklist user_id enable) ->
    a ∉ calls (trace_of (delete_command event msg self))).
  { intros msg a H1 H2.
    destruct (delete_command_run event msg self) as [_ [->|[[? ->]|[? ->]]]].
    - apply not_elem_of_nil.
    - intros ->%list_elem_of_singleton. by eapply H1.
    - intros ->%list_elem_of_singleton. by eapply H2. }
  split; intros Hmark.
  - destruct (on_all_message_outcome event self)
      as [E|[E|[(i & ap & info & _ & Hm & Hin & E)|(i & ap & info & _ & Hm & Hin & E)]]];
      fold r in E; rewrite E.
    + split; [done|]. intros ??. apply not_elem_of_nil.
    + split; [by rewrite (proj1 (delete_command_run _ _ _))|].
      intros ??. by apply Hcmd.
    + destruct Hm as (Hm & _). congruence.
    + destruct (_reply_group_invite_cases event self i ap info Hin)
        as [[-> [->| ->]]|(_ & _ & -> & ->)];
        (split; [done|]); intros ??;
        solve [apply not_elem_of_nil | by intros ?%list_elem_of_singleton].
  - destruct (on_all_message_outcome event self)
      as [E|[E|[(i & ap & info & _ & Hm & Hin & E)|(i & ap & info & _ & Hm & Hin & E)]]];
      fold r in E; rewrite E.
    + split; [done|]. intros ???. apply not_elem_of_nil.
    + split; [by rewrite (proj1 (delete_command_run _ _ _))|].
      intros ???. by apply Hcmd.
    + destruct (_reply_friend_request_cases event self i ap info Hin)
        as [[-> [->| ->]]|(_ & _ & -> & ->)];
        (split; [done|]); intros ???;
        solve [apply not_elem_of_nil | by intros ?%list_elem_of_singleton].
    + destruct Hm as (Hm & _). congruence.
Qed.

Lemma marker_decides_registry_witness :
  let event := chat_event bot_returning ADMIN KW_APPROVE [Plain quoted_900] in
  pending_friend_requests (state_of (on_all_message event with_friend_111))
  = pending_friend_requests with_friend_111
  ∧ forall flag approve,
      set_friend_add_request flag approve
      ∉ calls (trace_of (on_all_message event with_friend_111)).
Proof.
  intros event.
  exact (proj1 (marker_decides_registry event with_friend_111) eq_refl).
Defined.

(** ** The direct commands *)

Lemma lstrip_nil_iff (s : str) : lstrip s = [] <-> forallb isspace s = true.
Proof.
  induction s as [|c s IH]; [done|]. cbn.
  destruct (isspace c); [done|]. split; intros; done.
Qed.

Lemma lstrip_head (s : str) (c : N) (t : str) :
  lstrip s = c :: t -> isspace c = false.
Proof.
  induction s as [|d s IH]; [done|]. cbn.
  destruct (isspace d) eqn:Hd; [done|]. by intros [= <- _].
Qed.

Lemma lstrip_idem (s : str) : lstrip (lstrip s) = lstrip s.
Proof.
  destruct (lstrip s) as [|c t] eqn:E; [done|].
  cbn. by rewrite (lstrip_head _ _ _ E).
Qed.

Lemma rstrip_idem (s : str) : rstrip (rstrip s) = rstrip s.
Proof.
  induction s as [|c s IH]; [done|]. cbn.
  destruct (rstrip s) as [|d r] eqn:E.
  - destruct (isspace c) eqn:Hc; [done|]. cbn. by rewrite Hc.
  - change (rstrip (c :: d :: r))
      with (match rstrip (d :: r) with
            | [] => if isspace c then [] else [c]
            | r' => c :: r'
            end).
    by rewrite IH.
Qed.

Lemma rstrip_spaces (ws : str) : forallb isspace ws = true -> rstrip ws = [].
Proof.
  induction ws as [|c ws IH]; [done|]. cbn.
  intros [Hc Hws]%andb_prop. by rewrite (IH Hws), Hc.
Qed.

Lemma rstrip_app_spaces (a ws : str) :
  forallb isspace ws = true -> rstrip (a ++ ws) = rstrip a.
Proof.
  intros Hws. induction a as [|c a IH]; cbn.
  - by apply rstrip_spaces.
  - by rewrite IH.
Qed.

Lemma strip_stripped (s : str) : rstrip (strip s) = strip s.
Proof. unfold strip. apply rstrip_idem. Qed.

Lemma strip_lstrip (s : str) : strip (lstrip s) = strip s.
Proof. unfold strip. by rewrite lstrip_idem. Qed.

Lemma strip_nonempty (s : str) : lstrip s ≠ [] -> strip s ≠ [].
Proof.
  unfold strip. destruct (lstrip s) as [|c t] eqn:E; [done|]. intros _.
  pose proof (rstrip_app_nonspace [] t c (lstrip_head _ _ _ E)) as H.
  cbn [app] in H. by rewrite H.
Qed.

(** In a stripped message, a word followed by a space is followed by more
    than whitespace. *)
Lemma stripped_has_argument (body word rest : str) :
  strip body = word ++ SPACE :: rest -> lstrip rest ≠ [].
Proof.
  intros E Hnil. apply lstrip_nil_iff in Hnil.
  pose proof (strip_stripped body) as Hs. rewrite E in Hs.
  rewrite (rstrip_app_spaces word (SPACE :: rest)) in Hs by (cbn; by rewrite Hnil).
  destruct (rstrip_spec word) as (ws & Hword & _).
  assert (Hlen : length (rstrip word) = (length word + S (length rest))%nat).
  { by rewrite Hs, length_app. }
  rewrite Hword in Hlen at 2. rewrite length_app in Hlen. lia.
Qed.

Lemma delete_command_argument event self (body rest : str) :
  strip body = CMD_DELETE ++ rest ->
  lstrip rest ≠ []
  ∧ delete_command event (strip body) self
    = _delete_friend event (strip (drop (length CMD_DELETE) (strip body))) self.
Proof.
  intros E.
  assert (Hrest : lstrip rest ≠ []).
  { by apply (stripped_has_argument body (take 4 CMD_DELETE) rest). }
  split; [done|]. rewrite E, drop_app_length.
  unfold delete_command. rewrite startswith_app.
  unfold split_ws1. cbn [CMD_DELETE app lstrip isspace N.leb N.eqb N.compare
    Pos.compare Pos.compare_cont andb orb Pos.eqb span_word].
  change (lstrip (32%N :: rest)) with (lstrip rest).
  destruct (lstrip rest) as [|c t] eqn:El; [done|].
  by rewrite <-El, strip_lstrip.
Qed.

Lemma ban_command_argument event self (body rest : str) :
  strip body = CMD_BAN ++ rest ->
  lstrip rest ≠ []
  ∧ delete_command event (strip body) self
    = _ban_user event (strip (drop (length CMD_BAN) (strip body))) self.
Proof.
  intros E.
  assert (Hrest : lstrip rest ≠ []).
  { by apply (stripped_has_argument body (take 2 CMD_BAN) rest). }
  split; [done|]. rewrite E, drop_app_length.
  unfold delete_command.
  change (startswith CMD_DELETE (CMD_BAN ++ rest)) with false. cbv iota.
  unfold ban_command. rewrite startswith_app.
  unfold split_ws1. cbn [CMD_BAN app lstrip isspace N.leb N.eqb N.compare
    Pos.compare Pos.compare_cont andb orb Pos.eqb span_word].
  change (lstrip (32%N :: rest)) with (lstrip rest).
  destruct (lstrip rest) as [|c t] eqn:El; [done|].
  by rewrite <-El, strip_lstrip.
Qed.

Lemma on_all_message_undecided event self :
  get_sender_id event ∈ admin_qq_list self ->
  undecided event self ->
  on_all_message event self =
  match strip (message_str event) with
  | [] => (tt, self, [])
  | msg => delete_command event msg self
  end.
Proof.
  intros Hyes [[Ha Hr]|[Hf Hg]]; [by apply on_all_message_no_keyword|].
  rewrite (on_all_message_admin _ _ Hyes).
  destruct (strip (message_str event)) as [|c msg]; [done|].
  by rewrite friend_request_reply_unmatched, group_invite_reply_unmatched.
Qed.

(** An administrator's message that dispatches no decision and whose stripped
    body starts with [删除好友 ] always has an argument: the length check on
    the split cannot fail.  On a bot with [call_action] it makes the one call
    [delete_friend] with the rest of the body, stripped, as target (spaces
    inside the rest included) and leaves the plugin as it was.  When the call
    raises, its failure text is logged and sent; when it returns, the
    confirmation is sent, and should that send raise, the failure text of
    the send is logged and sent after it. *)
Theorem delete_friend_command event self :
  get_sender_id event ∈ admin_qq_list self ->
  undecided event self ->
  startswith CMD_DELETE (strip (message_str event)) = true ->
  has_call_action (bot event) = true ->
  let r := on_all_message event self in
  let target := strip (drop (length CMD_DELETE) (strip (message_str event))) in
  target ≠ []
  ∧ calls (trace_of r) = [delete_friend target]
  ∧ sends (trace_of r)
    = match call_action (bot event) (delete_friend target) with
      | None =>
        (MSG_deleted ++ target) ::
        match send event (MSG_deleted ++ target) with
        | None => []
        | Some e => [MSG_delete_failed ++ e]
        end
      | Some e => [MSG_delete_failed ++ e]
      end
  ∧ error_logs (trace_of r)
    = match call_action (bot event) (delete_friend target) with
      | None =>
        match send event (MSG_deleted ++ target) with
        | None => []
        | Some e => [MSG_delete_failed ++ e]
        end
      | Some e => [MSG_delete_failed ++ e]
      end
  ∧ state_of r = self.
Proof.
  intros Hyes Hund Hcmd Hbot r target. subst r target.
  rewrite (on_all_message_undecided _ _ Hyes Hund).
  apply startswith_spec in Hcmd as [rest E].
  destruct (delete_command_argument event self _ rest E) as [Hrest Hd].
  assert (Hne : strip (message_str event) ≠ []) by by rewrite E.
  destruct (strip (message_str event)) as [|c msg] eqn:Es; [done|].
  rewrite Hd. split.
  - rewrite E, drop_app_length. rewrite <-strip_lstrip. by apply strip_nonempty;
      rewrite lstrip_idem.
  - rewrite (_delete_friend_supported _ _ _ Hbot). cbn [state_of trace_of fst snd].
    destruct (call_action _ _); [done|]. by destruct (send event _).
Qed.

Lemma delete_friend_command_witness :
  let r := on_all_message
             (chat_event_unsendable bot_returning ADMIN (u "  删除好友   222 333  ")
                [] (u "closed")) fresh in
  calls (trace_of r) = [delete_friend (u "222 333")]
  ∧ sends (trace_of r)
    = [MSG_deleted ++ u "222 333"; MSG_delete_failed ++ u "closed"]
  ∧ error_logs (trace_of r) = [MSG_delete_failed ++ u "closed"].
Proof.
  intros r.
  assert (Hadmin : ADMIN ∈ admin_qq_list fresh) by left.
  assert (Hund : undecided
            (chat_event_unsendable bot_returning ADMIN (u "  删除好友   222 333  ")
               [] (u "closed")) fresh) by (left; by split).
  pose proof (delete_friend_command
                (chat_event_unsendable bot_returning ADMIN (u "  删除好友   222 333  ")
                   [] (u "closed")) fresh Hadmin Hund eq_refl eq_refl)
    as (_ & H1 & H2 & H3 & _).
  split; [exact H1|]. split; [exact H2|exact H3].
Defined.

(** The same for [拉黑 ]: the one call is [set_friend_blacklist] with the
    rest of the body, stripped, as target and [enable=True]; the failure of
    the call, or of the confirmation sent after a returning call, is logged
    and sent. *)
Theorem ban_user_command event self :
  get_sender_id event ∈ admin_qq_list self ->
  undecided event self ->
  startswith CMD_BAN (strip (message_str event)) = true ->
  has_call_action (bot event) = true ->
  let r := on_all_message event self in
  let target := strip (drop (length CMD_BAN) (strip (message_str event))) in
  target ≠ []
  ∧ calls (trace_of r) = [set_friend_blacklist target true]
  ∧ sends (trace_of r)
    = match call_action (bot event) (set_friend_blacklist target true) with
      | None =>
        (MSG_banned ++ target) ::
        match send event (MSG_banned ++ target) with
        | None => []
        | Some e => [MSG_ban_failed ++ e]
        end
      | Some e => [MSG_ban_failed ++ e]
      end
  ∧ error_logs (trace_of r)
    = match call_action (bot event) (set_friend_blacklist target true) with
      | None =>
        match send event (MSG_banned ++ target) with
        | None => []
        | Some e => [MSG_ban_failed ++ e]
        end
      | Some e => [MSG_ban_failed ++ e]
      end
  ∧ state_of r = self.
Proof.
  intros Hyes Hund Hcmd Hbot r target. subst r target.
  rewrite (on_all_message_undecided _ _ Hyes Hund).
  apply startswith_spec in Hcmd as [rest E].
  destruct (ban_command_argument event self _ rest E) as [Hrest Hd].
  assert (Hne : strip (message_str event) ≠ []) by by rewrite E.
  destruct (strip (message_str event)) as [|c msg] eqn:Es; [done|].
  rewrite Hd. split.
  - rewrite E, drop_app_length. rewrite <-strip_lstrip. by apply strip_nonempty;
      rewrite lstrip_idem.
  - rewrite (_ban_user_supported _ _ _ Hbot). cbn [state_of trace_of fst snd].
    destruct (call_action _ _); [done|]. by destruct (send event _).
Qed.

Lemma ban_user_command_witness :
  let r := on_all_message
             (chat_event_unsendable bot_returning ADMIN (u "拉黑 20002") []
                (u "closed")) fresh in
  calls (trace_of r) = [set_friend_blacklist (u "20002") true]
  ∧ sends (trace_of r) = [MSG_banned ++ u "20002"; MSG_ban_failed ++ u "closed"]
  ∧ error_logs (trace_of r) = [MSG_ban_failed ++ u "closed"].
Proof.
  intros r.
  assert (Hadmin : ADMIN ∈ admin_qq_list fresh) by left.
  assert (Hund : undecided
            (chat_event_unsendable bot_returning ADMIN (u "拉黑 20002") []
               (u "closed")) fresh) by (left; by split).
  pose proof (ban_user_command
                (chat_event_unsendable bot_returning ADMIN (u "拉黑 20002") []
                   (u "closed")) fresh Hadmin Hund eq_refl eq_refl)
    as (_ & H1 & H2 & H3 & _).
  split; [exact H1|]. split; [exact H2|exact H3].
Defined.

(** An administrator's message that dispatches no decision and starts with
    neither command is dropped without a word: no call, no reply, no log, no
    change.  This covers the empty and the all-whitespace body, and the bare
    command words without an argument. *)
Theorem unrecognized_message_is_dropped event self :
  get_sender_id event ∈ admin_qq_list self ->
  undecided event self ->
  startswith CMD_DELETE (strip (message_str event)) = false ->
  startswith CMD_BAN (strip (message_str event)) = false ->
  on_all_message event self = (tt, self, []).
Proof.
  intros Hyes Hund Hd Hb. rewrite (on_all_message_undecided _ _ Hyes Hund).
  destruct (strip (message_str event)) as [|c msg]; [done|].
  unfold delete_command, ban_command. by rewrite Hd, Hb.
Qed.

Lemma unrecognized_message_is_dropped_witness :
  on_all_message (chat_event bot_returning ADMIN (u " 删除好友  ")
                    [Plain quoted_111]) with_friend_111
  = (tt, with_friend_111, []).
Proof.
  apply (unrecognized_message_is_dropped
           (chat_event bot_returning ADMIN (u " 删除好友  ") [Plain quoted_111])
           with_friend_111);
    [left|left; by split|reflexivity|reflexivity].
Defined.

(** ** From the notification back to the record *)

Lemma islinebreak_isspace (c : N) : islinebreak c = true -> isspace c = true.
Proof.
  unfold islinebreak, isspace.
  rewrite !orb_true_iff, !andb_true_iff, !N.leb_le, !N.eqb_eq. lia.
Qed.

Lemma no_space_no_linebreak (s : str) : no_space s -> no_linebreak s.
Proof.
  unfold no_space, no_linebreak. induction s as [|c s IH]; [done|]. cbn.
  intros [Hc Hs]%andb_prop. rewrite (IH Hs), andb_true_r.
  destruct (islinebreak c) eqn:E; [|done].
  by rewrite (islinebreak_isspace _ E) in Hc.
Qed.

Lemma no_space_app (a b : str) : no_space a -> no_space b -> no_space (a ++ b).
Proof. unfold no_space. rewrite forallb_app. by intros -> ->. Qed.

Lemma strip_no_space (s : str) : no_space s -> strip s = s.
Proof.
  unfold no_space, strip. intros Hs.
  assert (Hl : lstrip s = s).
  { destruct s as [|c s]; [done|]. cbn in Hs |- *.
    apply andb_prop in Hs as [Hc _]. by destruct (isspace c). }
  rewrite Hl. induction s as [|c s IH]; [done|].
  cbn in Hs. apply andb_prop in Hs as [Hc Hs].
  assert (Hc' : isspace c = false) by by destruct (isspace c).
  apply (rstrip_app_nonspace [] s c) in Hc'. cbn [app] in Hc'. rewrite Hc'.
  f_equal. apply IH; [done|].
  destruct s as [|d s]; [done|]. cbn in Hs |- *.
  apply andb_prop in Hs as [Hd _]. by destruct (isspace d).
Qed.

Lemma friend_request_id_no_space (user_id flag : str) :
  no_space user_id -> no_space flag -> no_space (friend_request_id user_id flag).
Proof.
  intros Hu Hf. unfold friend_request_id.
  apply no_space_app; [done|]. by apply no_space_app.
Qed.

Lemma group_invite_id_no_space (group_id user_id flag : str) :
  no_space group_id -> no_space user_id -> no_space flag ->
  no_space (group_invite_id group_id user_id flag).
Proof.
  intros Hg Hu Hf. unfold group_invite_id.
  repeat (apply no_space_app; [done|]). done.
Qed.

Lemma contains_prefix (p b : str) : contains p (p ++ b) = true.
Proof. rewrite contains_unfold. by rewrite startswith_app. Qed.

Lemma friend_request_text_plain_lines (user_id comment request_id : str) :
  no_linebreak user_id -> no_linebreak comment -> no_linebreak request_id ->
  splitlines (friend_request_text user_id comment request_id)
  = [FRIEND_MARKER; T_requester ++ user_id; T_comment ++ comment;
     T_friend_id ++ request_id; T_quote_hint; T_choices].
Proof.
  intros Hu Hc Hr. unfold friend_request_text.
  replace (FRIEND_MARKER ++ [LF] ++ T_requester ++ user_id ++ [LF] ++
           T_comment ++ comment ++ [LF] ++
           T_friend_id ++ request_id ++ [LF] ++ T_quote_hint ++ [LF] ++ T_choices)
    with (FRIEND_MARKER ++ LF :: (T_requester ++ user_id) ++ LF ::
          (T_comment ++ comment) ++ LF :: (T_friend_id ++ request_id) ++ LF ::
          (T_quote_hint ++ [LF] ++ T_choices)).
  - rewrite !splitlines_line; [done|..]; try done;
      by apply no_linebreak_app.
  - cbn [app]. rewrite <-!app_assoc. cbn [app]. by rewrite <-?app_assoc.
Qed.

Lemma group_invite_text_plain_lines (group_id user_id request_id : str) :
  no_linebreak group_id -> no_linebreak user_id -> no_linebreak request_id ->
  splitlines (group_invite_text group_id user_id request_id)
  = [GROUP_MARKER; T_group ++ group_id; T_inviter ++ user_id;
     T_group_id ++ request_id; T_quote_hint; T_choices].
Proof.
  intros Hg Hu Hr. unfold group_invite_text.
  replace (GROUP_MARKER ++ [LF] ++ T_group ++ group_id ++ [LF] ++
           T_inviter ++ user_id ++ [LF] ++
           T_group_id ++ request_id ++ [LF] ++ T_quote_hint ++ [LF] ++ T_choices)
    with (GROUP_MARKER ++ LF :: (T_group ++ group_id) ++ LF ::
          (T_inviter ++ user_id) ++ LF :: (T_group_id ++ request_id) ++ LF ::
          (T_quote_hint ++ [LF] ++ T_choices)).
  - rewrite !splitlines_line; [done|..]; try done;
      by apply no_linebreak_app.
  - cbn [app]. rewrite <-!app_assoc. cbn [app]. by rewrite <-?app_assoc.
Qed.

Lemma friend_text_extraction (user_id comment flag : str) :
  no_linebreak user_id -> no_linebreak comment -> no_linebreak flag ->
  extract_request_id FRIEND_ID_LABEL
    (splitlines (friend_request_text user_id comment
                   (friend_request_id user_id flag)))
  = Some (strip (friend_request_id user_id flag)).
Proof.
  intros Hu Hc Hf. rewrite friend_request_text_plain_lines; [done..|].
  apply no_linebreak_app; [done|]. by apply no_linebreak_app.
Qed.

Lemma group_text_extraction (group_id user_id flag : str) :
  no_linebreak group_id -> no_linebreak user_id -> no_linebreak flag ->
  extract_request_id GROUP_ID_LABEL
    (splitlines (group_invite_text group_id user_id
                   (group_invite_id group_id user_id flag)))
  = Some (strip (group_invite_id group_id user_id flag)).
Proof.
  intros Hg Hu Hf. rewrite group_invite_text_plain_lines; [done..|].
  repeat (apply no_linebreak_app; [done|]). done.
Qed.

(** The notification and the extraction agree.  When the fields of a friend
    request (of a group invite) hold no line boundary, the text sent to the
    administrators carries the marker, and the id extracted from it is the
    recorded correlation id, stripped; it is the recorded id itself when the
    ids and the token hold no whitespace. *)
Theorem notification_names_its_record (user_id comment flag group_id : str) :
  no_linebreak user_id -> no_linebreak comment -> no_linebreak flag ->
  no_linebreak group_id ->
  let fid := friend_request_id user_id flag in
  let gid := group_invite_id group_id user_id flag in
  let ftext := friend_request_text user_id comment fid in
  let gtext := group_invite_text group_id user_id gid in
  contains FRIEND_MARKER ftext = true
  ∧ extract_request_id FRIEND_ID_LABEL (splitlines ftext) = Some (strip fid)
  ∧ contains GROUP_MARKER gtext = true
  ∧ extract_request_id GROUP_ID_LABEL (splitlines gtext) = Some (strip gid)
  ∧ (no_space user_id -> no_space flag -> strip fid = fid)
  ∧ (no_space group_id -> no_space user_id -> no_space flag -> strip gid = gid).
Proof.
  intros Hu Hc Hf Hg fid gid ftext gtext. subst fid gid ftext gtext.
  split; [apply contains_prefix|].
  split; [by apply friend_text_extraction|].
  split; [apply contains_prefix|].
  split; [by apply group_text_extraction|].
  split.
  - intros. by apply strip_no_space, friend_request_id_no_space.
  - intros. by apply strip_no_space, group_invite_id_no_space.
Qed.

Lemma notification_names_its_record_witness :
  extract_request_id FRIEND_ID_LABEL
    (splitlines (friend_request_text (u "111") (u "hello there")
                   (friend_request_id (u "111") (u "flagA"))))
  = Some (strip (u "111_flagA"))
  ∧ extract_request_id GROUP_ID_LABEL
      (splitlines (group_invite_text (u "900") (u "111")
                     (group_invite_id (u "900") (u "111") (u "flagA"))))
    = Some (strip (u "900_111_flagA")).
Proof.
  pose proof (notification_names_its_record (u "111") (u "hello there") (u "flagA")
                (u "900") eq_refl eq_refl eq_refl eq_refl) as (_ & H1 & _ & H2 & _).
  split; [exact H1|exact H2].
Defined.

Lemma friend_request_id_nonempty (user_id flag : str) :
  friend_request_id user_id flag ≠ [].
Proof. unfold friend_request_id. by destruct user_id. Qed.

Lemma group_invite_id_nonempty (group_id user_id flag : str) :
  group_invite_id group_id user_id flag ≠ [].
Proof. unfold group_invite_id. by destruct group_id. Qed.

Lemma recorded_friend_matched event0 self0 (user_id comment flag : str) :
  no_space user_id -> no_space flag -> no_linebreak comment ->
  friend_matched
    (state_of (_handle_friend_request event0 (friend_event user_id comment flag) self0))
    (friend_request_text user_id comment (friend_request_id user_id flag))
    (friend_request_id user_id flag).
Proof.
  intros Hu Hf Hc.
  pose proof (friend_text_extraction user_id comment flag
                (no_space_no_linebreak _ Hu) Hc (no_space_no_linebreak _ Hf)) as Hid.
  rewrite (strip_no_space _ (friend_request_id_no_space _ _ Hu Hf)) in Hid.
  pose proof (contains_prefix FRIEND_MARKER) as Hm.
  split; [done|]. split; [done|]. split; [apply friend_request_id_nonempty|].
  rewrite record_friend_state. cbn. rewrite lookup_insert_eq. eauto.
Qed.

Lemma recorded_group_matched event0 self0 (group_id user_id flag : str) :
  no_space group_id -> no_space user_id -> no_space flag ->
  group_matched
    (state_of (_handle_group_invite event0 (group_event group_id user_id flag) self0))
    (group_invite_text group_id user_id (group_invite_id group_id user_id flag))
    (group_invite_id group_id user_id flag).
Proof.
  intros Hg Hu Hf.
  pose proof (group_text_extraction group_id user_id flag
                (no_space_no_linebreak _ Hg) (no_space_no_linebreak _ Hu)
                (no_space_no_linebreak _ Hf)) as Hid.
  rewrite (strip_no_space _ (group_invite_id_no_space _ _ _ Hg Hu Hf)) in Hid.
  pose proof (contains_prefix GROUP_MARKER) as Hm.
  split; [done|]. split; [done|]. split; [apply group_invite_id_nonempty|].
  rewrite record_group_state. cbn. rewrite lookup_insert_eq. eauto.
Qed.

(** The keyword test of the handler as a decision: [同意] anywhere in the body
    approves, else [拒绝] anywhere rejects. *)
Lemma decision_of_body (body : str) (approve : bool) :
  (if approve then contains KW_APPROVE body = true
   else contains KW_APPROVE body = false ∧ contains KW_REJECT body = true) ->
  strip body ≠ []
  ∧ (if contains KW_APPROVE (strip body) then true
     else if contains KW_REJECT (strip body) then false else negb approve)
    = approve.
Proof.
  destruct (contains_keyword_strip body) as [-> ->].
  destruct approve.
  - intros Ha. rewrite Ha. split; [|done].
    apply (contains_strip_nonempty KW_APPROVE); [done|].
    by rewrite (proj1 (contains_keyword_strip body)).
  - intros [Ha Hr]. rewrite Ha, Hr. split; [|done].
    apply (contains_strip_nonempty KW_REJECT); [done|].
    by rewrite (proj2 (contains_keyword_strip body)).
Qed.

(** From the gateway event to the decision, for every friend request whose
    requester id and token hold no whitespace and whose comment holds no line
    boundary: once the request is recorded, an administrator's message that
    quotes its notification and says [同意] (or, without [同意], [拒绝]) makes
    the one call [set_friend_add_request] with that request's token.  When
    the call returns, the record is removed and the confirmation with the
    requester id is sent (should this send raise, the record stays removed
    and the failure text of the send is sent after it); when the call raises,
    the plugin is as before and the failure text is sent. *)
Theorem quoted_friend_notification_is_decided event0 event self0
    (user_id comment flag : str) (approve : bool) :
  no_space user_id -> no_space flag -> no_linebreak comment ->
  get_sender_id event ∈ admin_qq_list self0 ->
  quoted_text_of event
    = friend_request_text user_id comment (friend_request_id user_id flag) ->
  (if approve then contains KW_APPROVE (message_str event) = true
   else contains KW_APPROVE (message_str event) = false
        ∧ contains KW_REJECT (message_str event) = true) ->
  has_call_action (bot event) = true ->
  let request_id := friend_request_id user_id flag in
  let self1 := state_of (_handle_friend_request event0
                           (friend_event user_id comment flag) self0) in
  let r := on_all_message event self1 in
  let a := set_friend_add_request flag approve in
  calls (trace_of r) = [a]
  ∧ match call_action (bot event) a with
    | None =>
      pending_friend_requests (state_of r)
        = delete request_id (pending_friend_requests self1)
      ∧ pending_friend_requests (state_of r) !! request_id = None
      ∧ (let text := (if approve then MSG_friend_approved else MSG_friend_rejected)
                     ++ user_id in
         sends (trace_of r)
         = text :: match send event text with
                   | None => []
                   | Some e => [MSG_friend_failed ++ e]
                   end)
    | Some e =>
      state_of r = self1 ∧ sends (trace_of r) = [MSG_friend_failed ++ e]
    end.
Proof.
  intros Hu Hf Hc Hyes Hq Hbody Hbot request_id self1 r a.
  pose proof (recorded_friend_matched event0 self0 _ _ _ Hu Hf Hc) as Hm.
  rewrite <-Hq in Hm. fold self1 request_id in Hm.
  assert (Hadmin : get_sender_id event ∈ admin_qq_list self1).
  { unfold self1. by rewrite record_friend_state. }
  assert (Hin : pending_friend_requests self1 !! request_id
                = Some (Friend.Info request_id user_id comment flag)).
  { unfold self1. rewrite record_friend_state. cbn. apply lookup_insert_eq. }
  destruct (decision_of_body _ _ Hbody) as [Hne Hdec].
  assert (Hr : r = _reply_friend_request event request_id approve self1).
  { unfold r. rewrite (on_all_message_admin _ _ Hadmin).
    destruct (strip (message_str event)) as [|c msg] eqn:Es; [done|].
    rewrite (friend_request_reply_matched _ _ _ _ _ Hm).
    destruct (contains KW_APPROVE (c :: msg)); [by subst approve|].
    destruct (contains KW_REJECT (c :: msg)); [by subst approve|].
    by destruct approve. }
  rewrite Hr, !(_reply_friend_request_present_calls _ _ _ approve _ Hin Hbot).
  rewrite (_reply_friend_request_present _ _ _ _ _ Hin Hbot). cbn zeta.
  cbn [Friend.flag Friend.user_id]. fold a. split; [done|].
  destruct (call_action (bot event) a); cbn [state_of trace_of fst snd]; [done|].
  cbn. rewrite lookup_delete_eq. do 2 (split; [done|]).
  by destruct (send event _).
Qed.

Lemma quoted_friend_notification_is_decided_witness :
  let text := friend_request_text (u "111") (u "hello there")
                (friend_request_id (u "111") (u "flagA")) in
  let self1 := state_of (_handle_friend_request (request_event ∅)
                 (friend_event (u "111") (u "hello there") (u "flagA")) fresh) in
  calls (trace_of (on_all_message
    (chat_event (bot_raising (u "timeout")) ADMIN (u "我不同意，拒绝")
       [NoText; Plain text]) self1))
  = [set_friend_add_request (u "flagA") true]
  ∧ (let r := on_all_message
                (chat_event_unsendable bot_returning ADMIN (u "拒绝")
                   [Plain text] (u "closed")) self1 in
     pending_friend_requests (state_of r) !! u "111_flagA" = None
     ∧ sends (trace_of r)
       = [MSG_friend_rejected ++ u "111"; MSG_friend_failed ++ u "closed"]).
Proof.
  intros text self1. split.
  - apply (quoted_friend_notification_is_decided (request_event ∅)
      (chat_event (bot_raising (u "timeout")) ADMIN (u "我不同意，拒绝")
         [NoText; Plain text])
      fresh (u "111") (u "hello there") (u "flagA") true);
      [reflexivity|reflexivity|reflexivity|left|reflexivity..].
  - assert (Hadmin : ADMIN ∈ admin_qq_list fresh) by left.
    pose proof (quoted_friend_notification_is_decided (request_event ∅)
      (chat_event_unsendable bot_returning ADMIN (u "拒绝") [Plain text] (u "closed"))
      fresh (u "111") (u "hello there") (u "flagA") false
      eq_refl eq_refl eq_refl Hadmin eq_refl (conj eq_refl eq_refl) eq_refl)
      as [_ H].
    exact (proj2 H).
Defined.

(** The same for a group invite, when the quoted notification does not also
    carry the friend-request marker: the one call is [set_group_add_request]
    with the invite's token and [sub_type="add"], and the confirmation names
    the group id. *)
Theorem quoted_group_notification_is_decided event0 event self0
    (group_id user_id flag : str) (approve : bool) :
  no_space group_id -> no_space user_id -> no_space flag ->
  get_sender_id event ∈ admin_qq_list self0 ->
  quoted_text_of event
    = group_invite_text group_id user_id (group_invite_id group_id user_id flag) ->
  contains FRIEND_MARKER (quoted_text_of event) = false ->
  (if approve then contains KW_APPROVE (message_str event) = true
   else contains KW_APPROVE (message_str event) = false
        ∧ contains KW_REJECT (message_str event) = true) ->
  has_call_action (bot event) = true ->
  let request_id := group_invite_id group_id user_id flag in
  let self1 := state_of (_handle_group_invite event0
                           (group_event group_id user_id flag) self0) in
  let r := on_all_message event self1 in
  let a := set_group_add_request flag V_add approve in
  calls (trace_of r) = [a]
  ∧ match call_action (bot event) a with
    | None =>
      pending_group_invites (state_of r)
        = delete request_id (pending_group_invites self1)
      ∧ pending_group_invites (state_of r) !! request_id = None
      ∧ (let text :=
           if approve
           then MSG_group_approved_1 ++ group_id ++ MSG_group_approved_2
           else MSG_group_rejected_1 ++ group_id ++ MSG_group_rejected_2 in
         sends (trace_of r)
         = text :: match send event text with
                   | None => []
                   | Some e => [MSG_group_failed ++ e]
                   end)
    | Some e =>
      state_of r = self1 ∧ sends (trace_of r) = [MSG_group_failed ++ e]
    end.
Proof.
  intros Hg Hu Hf Hyes Hq Hnof Hbody Hbot request_id self1 r a.
  pose proof (recorded_group_matched event0 self0 _ _ _ Hg Hu Hf) as Hm.
  rewrite <-Hq in Hm. fold self1 request_id in Hm.
  assert (Hadmin : get_sender_id event ∈ admin_qq_list self1).
  { unfold self1. by rewrite record_group_state. }
  assert (Hin : pending_group_invites self1 !! request_id
                = Some (Group.Info request_id group_id user_id flag)).
  { unfold self1. rewrite record_group_state. cbn. apply lookup_insert_eq. }
  destruct (decision_of_body _ _ Hbody) as [Hne Hdec].
  assert (Hr : r = _reply_group_invite event request_id approve self1).
  { unfold r. rewrite (on_all_message_admin _ _ Hadmin).
    destruct (strip (message_str event)) as [|c msg] eqn:Es; [done|].
    rewrite friend_request_reply_unmatched
      by (intros i (Hmark & _); congruence).
    rewrite (group_invite_reply_matched _ _ _ _ _ Hm).
    destruct (contains KW_APPROVE (c :: msg)); [by subst approve|].
    destruct (contains KW_REJECT (c :: msg)); [by subst approve|].
    by destruct approve. }
  rewrite Hr, !(_reply_group_invite_present_calls _ _ _ approve _ Hin Hbot).
  rewrite (_reply_group_invite_present _ _ _ _ _ Hin Hbot). cbn zeta.
  cbn [Group.flag Group.group_id]. fold a. split; [done|].
  destruct (call_action (bot event) a); cbn [state_of trace_of fst snd]; [done|].
  cbn. rewrite lookup_delete_eq. do 2 (split; [done|]).
  by destruct (send event _).
Qed.

Lemma quoted_group_notification_is_decided_witness :
  calls (trace_of (on_all_message
    (chat_event bot_returning ADMIN (u "拒绝")
       [Plain (group_invite_text (u "900") (u "111")
                 (group_invite_id (u "900") (u "111") (u "flagB")))])
    with_group_900))
  = [set_group_add_request (u "flagB") V_add false].
Proof.
  apply (quoted_group_notification_is_decided
    (request_event (group_event (u "900") (u "111") (u "flagB")))
    (chat_event bot_returning ADMIN (u "拒绝")
       [Plain (group_invite_text (u "900") (u "111")
                 (group_invite_id (u "900") (u "111") (u "flagB")))])
    fresh (u "900") (u "111") (u "flagB") false);
    [reflexivity|reflexivity|reflexivity|left|reflexivity|reflexivity
    |split; reflexivity|reflexivity].
Defined.

(** ** Gateway events *)

Lemma bind_skip_r (m : M unit) self : bind m (fun _ => skip) self = m self.
Proof.
  unfold bind, skip, ret. cbn. destruct (m self) as [[[] s] t]. cbn.
  by rewrite app_nil_r.
Qed.

Lemma bind_skip_l (m : M unit) self : bind skip (fun _ => m) self = m self.
Proof. unfold bind, skip, ret. cbn. by destruct (m self) as [[[] s] t]. Qed.

Lemma _notify_admins_sends text event self :
  sends (trace_of (_notify_admins text event self)) = [].
Proof.
  unfold _notify_admins. rewrite bind_get.
  destruct (admin_qq_list self); [done|]. apply notify_each_sends.
Qed.

Lemma _notify_admins_private_messages text event self :
  private_messages (trace_of (_notify_admins text event self))
  = omap (notified event text) (admin_qq_list self).
Proof.
  unfold _notify_admins. rewrite bind_get.
  destruct (admin_qq_list self) eqn:E; [done|].
  apply notify_each_private_messages.
Qed.

Lemma _handle_friend_request_trace event request_data self :
  calls (trace_of (_handle_friend_request event request_data self)) = []
  ∧ sends (trace_of (_handle_friend_request event request_data self)) = []
  ∧ private_messages (trace_of (_handle_friend_request event request_data self))
    = omap (notified event
              (friend_request_text
                 (dict_get request_data K_user_id)
                 (dict_get request_data K_comment)
                 (friend_request_id (dict_get request_data K_user_id)
                    (dict_get request_data K_flag))))
        (admin_qq_list self).
Proof.
  unfold _handle_friend_request. rewrite trace_bind.
  cbn [modify trace_of state_of fst snd app].
  by rewrite _notify_admins_calls, _notify_admins_sends,
    _notify_admins_private_messages.
Qed.

Lemma _handle_group_invite_trace event request_data self :
  calls (trace_of (_handle_group_invite event request_data self)) = []
  ∧ sends (trace_of (_handle_group_invite event request_data self)) = []
  ∧ private_messages (trace_of (_handle_group_invite event request_data self))
    = omap (notified event
              (group_invite_text
                 (dict_get request_data K_group_id)
                 (dict_get request_data K_user_id)
                 (group_invite_id (dict_get request_data K_group_id)
                    (dict_get request_data K_user_id)
                    (dict_get request_data K_flag))))
        (admin_qq_list self).
Proof.
  unfold _handle_group_invite. rewrite trace_bind.
  cbn [modify trace_of state_of fst snd app].
  by rewrite _notify_admins_calls, _notify_admins_sends,
    _notify_admins_private_messages.
Qed.

Lemma on_request_event_friend event self raw :
  raw_message event = Some raw ->
  raw !! K_post_type = Some V_request ->
  raw !! K_request_type = Some V_friend ->
  on_request_event event self = _handle_friend_request event raw self.
Proof.
  intros Hraw Hpost Htype. unfold on_request_event.
  rewrite Hraw, Hpost, Htype. cbn [bool_decide]. rewrite !bool_decide_eq_true_2 by done.
  rewrite (bool_decide_eq_false_2 (Some V_friend = Some V_group)) by done.
  cbn [andb]. apply bind_skip_r.
Qed.

Lemma on_request_event_group event self raw :
  raw_message event = Some raw ->
  raw !! K_post_type = Some V_request ->
  raw !! K_request_type = Some V_group ->
  raw !! K_sub_type = Some V_invite ->
  on_request_event event self = _handle_group_invite event raw self.
Proof.
  intros Hraw Hpost Htype Hsub. unfold on_request_event.
  rewrite Hraw, Hpost, Htype, Hsub. rewrite !bool_decide_eq_true_2 by done.
  rewrite (bool_decide_eq_false_2 (Some V_group = Some V_friend)) by done.
  cbn [andb]. apply bind_skip_l.
Qed.

Lemma on_request_event_other event self :
  (raw_message event = None
   ∨ exists raw, raw_message event = Some raw
       ∧ (raw !! K_post_type ≠ Some V_request
          ∨ (raw !! K_request_type ≠ Some V_friend
             ∧ (raw !! K_request_type ≠ Some V_group
                ∨ raw !! K_sub_type ≠ Some V_invite)))) ->
  on_request_event event self = (tt, self, []).
Proof.
  unfold on_request_event. intros [->|(raw & -> & H)]; [done|].
  destruct H as [H|[H1 H2]].
  - by rewrite bool_decide_eq_false_2.
  - case_bool_decide; [|done].
    rewrite (bool_decide_eq_false_2 _ H1).
    destruct H2 as [H2|H2]; rewrite (bool_decide_eq_false_2 _ H2);
      by rewrite ?andb_false_r.
Qed.

(** A gateway request event is stored and announced.  For a friend request
    ([post_type] request, [request_type] friend) the record is pending under
    its correlation id afterwards, with a missing field read as the empty
    string, and the notification that names this id is sent to the
    administrators in order, to each one for whom the adapter could be
    fetched; likewise for a group invite ([request_type] group, [sub_type]
    invite). *)
Theorem gateway_request_is_recorded_and_announced event self raw :
  raw_message event = Some raw ->
  raw !! K_post_type = Some V_request ->
  let r := on_request_event event self in
  let user_id := dict_get raw K_user_id in
  let comment := dict_get raw K_comment in
  let flag := dict_get raw K_flag in
  let group_id := dict_get raw K_group_id in
  let fid := friend_request_id user_id flag in
  let gid := group_invite_id group_id user_id flag in
  (raw !! K_request_type = Some V_friend ->
     pending_friend_requests (state_of r) !! fid
       = Some (Friend.Info fid user_id comment flag)
     ∧ pending_group_invites (state_of r) = pending_group_invites self
     ∧ private_messages (trace_of r)
       = omap (notified event (friend_request_text user_id comment fid))
           (admin_qq_list self))
  ∧ (raw !! K_request_type = Some V_group -> raw !! K_sub_type = Some V_invite ->
     pending_group_invites (state_of r) !! gid
       = Some (Group.Info gid group_id user_id flag)
     ∧ pending_friend_requests (state_of r) = pending_friend_requests self
     ∧ private_messages (trace_of r)
       = omap (notified event (group_invite_text group_id user_id gid))
           (admin_qq_list self)).
Proof.
  intros Hraw Hpost r user_id comment flag group_id fid gid. subst r.
  split.
  - intros Htype. rewrite (on_request_event_friend _ _ _ Hraw Hpost Htype).
    rewrite _handle_friend_request_state.
    destruct (_handle_friend_request_trace event raw self) as (_ & _ & ->).
    cbn. by rewrite lookup_insert_eq.
  - intros Htype Hsub. rewrite (on_request_event_group _ _ _ Hraw Hpost Htype Hsub).
    rewrite _handle_group_invite_state.
    destruct (_handle_group_invite_trace event raw self) as (_ & _ & ->).
    cbn. by rewrite lookup_insert_eq.
Qed.

(** The raw event of a friend request that lacks its [user_id]. *)
Lemma gateway_request_is_recorded_and_announced_witness :
  let raw : gmap str str :=
    <[K_post_type := V_request]> (<[K_request_type := V_friend]>
      (<[K_flag := u "flagA"]> ∅)) in
  pending_friend_requests (state_of (on_request_event (request_event raw) fresh))
    !! u "_flagA"
  = Some (Friend.Info (u "_flagA") [] [] (u "flagA"))
  ∧ private_messages (trace_of (on_request_event (request_event raw) fresh))
    = [(ADMIN, friend_request_text [] [] (u "_flagA"))].
Proof.
  intros raw.
  pose proof (proj1 (gateway_request_is_recorded_and_announced
                       (request_event raw) fresh raw eq_refl eq_refl) eq_refl)
    as (H1 & _ & H3).
  split; [exact H1|exact H3].
Defined.

(** [on_request_event] never reaches the actuator, never replies and never
    removes a pending record; and an event that is not a request, or a
    request that is neither a friend request nor a group invite (such as a
    request to join a group), is dropped with no effect at all. *)
Theorem on_request_event_never_acts event self :
  let r := on_request_event event self in
  calls (trace_of r) = []
  ∧ sends (trace_of r) = []
  ∧ (forall k, is_Some (pending_friend_requests self !! k) ->
       is_Some (pending_friend_requests (state_of r) !! k))
  ∧ (forall k, is_Some (pending_group_invites self !! k) ->
       is_Some (pending_group_invites (state_of r) !! k))
  ∧ admin_qq_list (state_of r) = admin_qq_list self
  ∧ ((raw_message event = None
      ∨ exists raw, raw_message event = Some raw
          ∧ (raw !! K_post_type ≠ Some V_request
             ∨ (raw !! K_request_type ≠ Some V_friend
                ∧ (raw !! K_request_type ≠ Some V_group
                   ∨ raw !! K_sub_type ≠ Some V_invite)))) ->
     r = (tt, self, [])).
Proof.
  intros r. subst r.
  assert (Hkeep : forall {V} (m : gmap str V) i v k,
    is_Some (m !! k) -> is_Some (<[i:=v]> m !! k)).
  { intros V m i v k Hk. destruct (decide (i = k)) as [->|Hne].
    - rewrite lookup_insert_eq. eauto.
    - by rewrite lookup_insert_ne. }
  split; [|split; [|split; [|split; [|split]]]];
    try apply on_request_event_other.
  all: destruct (raw_message event) as [raw|] eqn:Hraw;
    [|by rewrite on_request_event_other by auto].
  all: destruct (decide (raw !! K_post_type = Some V_request)) as [Hpost|Hpost];
    [|by rewrite on_request_event_other by eauto].
  all: destruct (decide (raw !! K_request_type = Some V_friend)) as [Hf|Hf].
  all: try (rewrite (on_request_event_friend _ _ _ Hraw Hpost Hf);
            first [ apply _handle_friend_request_trace
                  | rewrite _handle_friend_request_state; cbn; by eauto ]).
  all: destruct (decide (raw !! K_request_type = Some V_group)) as [Hg|Hg];
    [|by rewrite on_request_event_other by eauto 10].
  all: destruct (decide (raw !! K_sub_type = Some V_invite)) as [Hs|Hs];
    [|by rewrite on_request_event_other by eauto 10].
  all: rewrite (on_request_event_group _ _ _ Hraw Hpost Hg Hs);
    first [ apply _handle_group_invite_trace
          | rewrite _handle_group_invite_state; cbn; by eauto ].
Qed.

(** A request to join a group ([sub_type] add) is dropped. *)
Lemma on_request_event_never_acts_witness :
  let raw : gmap str str :=
    <[K_post_type := V_request]> (<[K_request_type := V_group]>
      (<[K_sub_type := V_add]> (<[K_group_id := u "900"]>
        (<[K_user_id := u "111"]> (<[K_flag := u "flagB"]> ∅))))) in
  on_request_event (request_event raw) fresh = (tt, fresh, []).
Proof.
  intros raw.
  apply (on_request_event_never_acts (request_event raw) fresh).
  right. exists raw. split; [reflexivity|]. right.
  split; [discriminate|]. right. discriminate.
Defined.

(** ** A decision is taken once *)




